(** * rocker-compose: [src/compose/docker.go]

    A shallow embedding of the tag resolution and image pulling code of
    package [compose], and of the bridge address discovery next to it.

    The packages [imagename] (github.com/grammarly/rocker) and [docker]
    (github.com/fsouza/go-dockerclient) are external to the repository.
    Their types are given as records holding the fields this file reads,
    their methods as the members of an interface ([imagename.API]) and
    the replies of the engine and the registry as oracles ([docker.Client],
    [DockerHub]).  Every call made to the engine or the registry is recorded in a
    log threaded through a state monad, so that "which service has been
    consulted" is a statement about the log. *)

From Stdlib Require Import String Ascii List Bool Arith Lia Permutation.
From ExtLib Require Import Structures.Monad Data.Monads.StateMonad.
Import ListNotations.
Import MonadNotation.
Local Open Scope string_scope.
Local Open Scope list_scope.
Local Open Scope monad_scope.

(** A Go [error] is represented by its message ([err.Error()]); [nil] is
    [None]. *)
Definition error := string.

(** ** Package [imagename] *)
Module imagename.

(** [imagename.ImageName]: the struct behind every [*imagename.ImageName].
    The parsed version range the struct caches is a function of [Tag] and
    is observed through [HasVersionRange], [All] and [Contains] only. *)
Record ImageName := {
  Registry : string;
  Name : string;
  Tag : string
}.

(** Modelled from the spec: the package constant [imagename.Latest],
    "the literal latest marker". *)
Definition Latest : string := "latest".

(** The functions and methods of the package that [docker.go] calls.
    [TagAsVersion] is meaningful only where [HasVersion] holds; the code
    guards every use. [Image_String] is the [String()] method that the
    [%s] verb of [fmt] calls. *)
Class API := {
  Version : Type;
  New : string -> string -> ImageName;
  NewFromString : string -> ImageName;
  NameWithRegistry : ImageName -> string;
  GetTag : ImageName -> string;
  HasVersion : ImageName -> bool;
  HasVersionRange : ImageName -> bool;
  All : ImageName -> bool;
  TagAsVersion : ImageName -> Version;
  Less : Version -> Version -> bool;
  Contains : ImageName -> ImageName -> bool;
  Image_String : ImageName -> string
}.

Definition ImageName_eq_dec (a b : ImageName) : {a = b} + {a <> b}.
Proof. repeat decide equality. Defined.

End imagename.
Import imagename.

(** ** Selection of the most recent tag *)
Section Selection.
Context {api : API}.

(** The body of the [for _, candidate := range list] loop of
    [findMostRecentTag], with the named result [img] as accumulator
    ([None] is [nil]).  [return] inside the loop ends the scan. *)
Fixpoint findMostRecentTag_loop (image : ImageName) (list : list ImageName)
    (img : option ImageName) : option ImageName :=
  match list with
  | [] => img
  | candidate :: rest =>
      if negb (Contains image candidate) then
        (* tag is not applicable: continue *)
        findMostRecentTag_loop image rest img
      else if String.eqb (GetTag candidate) Latest then
        (* use latest if it's possible: img = candidate; return *)
        Some candidate
      else
        match img with
        | None => findMostRecentTag_loop image rest (Some candidate)
        | Some cur =>
            if negb (HasVersion candidate) then
              (* uncomparable candidate: continue *)
              findMostRecentTag_loop image rest img
            else if HasVersion cur && HasVersion candidate
                    && Less (TagAsVersion cur) (TagAsVersion candidate) then
              findMostRecentTag_loop image rest (Some candidate)
            else
              findMostRecentTag_loop image rest img
        end
  end.

(** [func findMostRecentTag(image, list) (img *imagename.ImageName)] *)
Definition findMostRecentTag (image : ImageName) (list : list ImageName)
    : option ImageName :=
  findMostRecentTag_loop image list None.

(** The candidates the scan does not skip, and the ones that end it. *)
Definition applicable (image c : ImageName) : bool := Contains image c.

Definition isLatest (c : ImageName) : bool := String.eqb (GetTag c) Latest.

Definition applicableLatest (image c : ImageName) : bool :=
  applicable image c && isLatest c.

(** In [l], [a] is met before any occurrence of [b]. *)
Definition seenBefore (a b : ImageName) (l : list ImageName) : Prop :=
  exists l1 l2, l = l1 ++ a :: l2 /\ ~ In b l1.

End Selection.

(** [imagename.DockerHub]: the registry client; [List] is the reply of the
    registry to the GET request [hub.List(image)], a Go pair
    [(list, err)]. *)
Record DockerHub := {
  List : ImageName -> list ImageName * option error
}.

(** ** Package [docker] (go-dockerclient) *)
Module docker.

Record APIImages := { RepoTags : list string }.

Record AuthConfiguration := {
  Username : string;
  Password : string;
  Email : string;
  ServerAddress : string
}.

(** [OutputStream] is the write end of the pipe of [PullDockerImage]; it is
    the same object in every request and is left out. *)
Record PullImageOptions := {
  Repository : string;
  Registry : string;
  Tag : string;
  RawJSONStream : bool
}.

Record ContainerConfig := { Image : string; Cmd : list string }.

(** [HostConfig] is the empty [&docker.HostConfig{}] throughout. *)
Record CreateContainerOptions := { Config : ContainerConfig }.

Record NetworkSettings := { Gateway : string }.

Record Container := { ID : string; Network : NetworkSettings }.

Record RemoveContainerOptions := {
  RemoveID : string;
  Force : bool;
  RemoveVolumes : bool
}.

(** The replies of the engine behind a [*docker.Client], one per method the
    file calls.  A Go result [(v, err)] is a pair; [v] is meaningful only
    where [err] is [None]. *)
Record Client := {
  InspectImage : string -> option error;
  ListImages : list APIImages * option error;
  PullImage : PullImageOptions -> AuthConfiguration -> option error;
  CreateContainer : CreateContainerOptions -> Container * option error;
  StartContainer : string -> option error;
  InspectContainer : string -> Container * option error;
  RemoveContainer : RemoveContainerOptions -> option error
}.

End docker.

(** ** Calls to the outside world *)

(** One entry of the log: a request sent to the engine or to the registry. *)
Inductive Call :=
| InspectImageCall (name : string)
| ListImagesCall
| HubListCall (image : ImageName)
| PullImageCall (opts : docker.PullImageOptions) (auth : docker.AuthConfiguration)
| CreateContainerCall (opts : docker.CreateContainerOptions)
| StartContainerCall (id : string)
| InspectContainerCall (id : string)
| RemoveContainerCall (opts : docker.RemoveContainerOptions).

(** Computations that talk to the engine: the log of calls is the state. *)
Definition Docker := state (list Call).

Definition record (c : Call) : Docker unit :=
  mkState (fun log => (tt, log ++ [c])).

Definition isRemoveContainerCall (c : Call) : bool :=
  match c with RemoveContainerCall _ => true | _ => false end.

(** [len(x) == 0] *)
Definition len0 {A} (l : list A) : bool :=
  match l with [] => true | _ => false end.

(** The width in bytes of the rune at the head of a string, as
    [utf8.DecodeRuneInString] finds it: one byte for ASCII, two to four for
    a well-formed sequence, and one for a byte that starts no well-formed
    sequence (decoded as [RuneError]). *)
Definition byteIn (lo hi : nat) (a : ascii) : bool :=
  ((lo <=? nat_of_ascii a) && (nat_of_ascii a <=? hi))%nat.

Definition runeWidth (s : string) : nat :=
  match s with
  | EmptyString => 0
  | String b0 rest =>
      if byteIn 0 127 b0 then 1
      else if byteIn 194 223 b0 then
        match rest with
        | String b1 _ => if byteIn 128 191 b1 then 2 else 1
        | _ => 1
        end
      else if byteIn 224 239 b0 then
        match rest with
        | String b1 (String b2 _) =>
            if byteIn (if byteIn 224 224 b0 then 160 else 128)
                      (if byteIn 237 237 b0 then 159 else 191) b1
               && byteIn 128 191 b2
            then 3 else 1
        | _ => 1
        end
      else if byteIn 240 244 b0 then
        match rest with
        | String b1 (String b2 (String b3 _)) =>
            if byteIn (if byteIn 240 240 b0 then 144 else 128)
                      (if byteIn 244 244 b0 then 143 else 191) b1
               && byteIn 128 191 b2 && byteIn 128 191 b3
            then 4 else 1
        | _ => 1
        end
      else 1
  end.

(** [fmt]'s truncation of a string to a precision: [for i := range s] steps
    over the runes of [s], and [s] is cut at the byte where the rune after
    the [n]-th starts.  [inside] counts the bytes of the current rune still
    to be copied. *)
Fixpoint truncateString (n inside : nat) (s : string) : string :=
  match s with
  | EmptyString => EmptyString
  | String a rest =>
      match inside with
      | S k => String a (truncateString n k rest)
      | O =>
          match n with
          | O => EmptyString
          | S m => String a (truncateString m (runeWidth s - 1) rest)
          end
      end
  end.

(** [fmt]'s [%.12s]: at most the first twelve runes. *)
Definition trunc12 (s : string) : string := truncateString 12 0 s.

Definition emptyImageName : string := "gliderlabs/alpine:3.2".

(** ** Package [compose] *)
Section Compose.
Context {api : API}.

(** [hub] is what [imagename.NewDockerHub()] hands out; [stream] is the
    result of [jsonmessage.DisplayJSONMessagesStream] on the read end of
    the pipe. *)
Variable hub : DockerHub.
Variable stream : option error.

(** [func listImagesInRegistry(image) (list, err)] *)
Definition listImagesInRegistry (image : ImageName)
    : Docker (list ImageName * option error) :=
  record (HubListCall image) ;;
  ret (List hub image).

(** [for _, tag := range img.RepoTags]: the first tag that [image]
    contains is appended and the loop is left ([break]). *)
Fixpoint scanRepoTags (image : ImageName) (tags : list string)
    (list : list ImageName) : Datatypes.list ImageName :=
  match tags with
  | [] => list
  | tag :: rest =>
      let candidate := NewFromString tag in
      if Contains image candidate then list ++ [candidate]
      else scanRepoTags image rest list
  end.

(** [for _, img := range all] *)
Fixpoint scanImages (image : ImageName) (all : list docker.APIImages)
    (list : list ImageName) : Datatypes.list ImageName :=
  match all with
  | [] => list
  | img :: rest =>
      scanImages image rest (scanRepoTags image (docker.RepoTags img) list)
  end.

(** [func listImagesInDocker(client, image) (list, err)]; the named result
    [list] is still [nil] when the listing fails. *)
Definition listImagesInDocker (client : docker.Client) (image : ImageName)
    : Docker (list ImageName * option error) :=
  record ListImagesCall ;;
  let '(all, err) := docker.ListImages client in
  match err with
  | Some e => ret ([], Some ("Failed to list all images, error: " ++ e)%string)
  | None => ret (scanImages image all [], None)
  end.

(** Lines 139-143 of [PullDockerImage]: the candidates of the engine, and
    those of the registry in their place when there are none or [force] is
    set.  Both [list] and [err] are overwritten by the second listing. *)
Definition gatherCandidates (client : docker.Client) (image : ImageName)
    (force : bool) : Docker (list ImageName * option error) :=
  r <- listImagesInDocker client image ;;
  if len0 (fst r) || force then listImagesInRegistry image
  else ret r.

(** Lines 136-152 of [PullDockerImage]: the tag to pull, or the error the
    function returns before pulling anything. *)
Definition resolveTag (client : docker.Client) (image : ImageName)
    (force : bool) : Docker (string * option error) :=
  let tag := Tag image in
  if HasVersionRange image || All image then
    r <- gatherCandidates client image force ;;
    let '(list, err) := r in
    match err with
    | Some e => ret (tag, Some e)
    | None =>
        match findMostRecentTag image list with
        | Some recent => ret (Tag recent, None)
        | None => ret (tag, None)
        end
    end
  else ret (tag, None).

(** Lines 154-189 of [PullDockerImage]: the pull of [tag].  The goroutine
    that runs [client.PullImage] and the foreground that drains the pipe are
    put in sequence: the request is sent, the stream is displayed, then the
    result of the request is read from [errch]. *)
Definition pullTag (client : docker.Client) (image : ImageName)
    (auth : docker.AuthConfiguration) (tag : string)
    : Docker (option ImageName * option error) :=
  let pullOpts := {|
    docker.Repository := NameWithRegistry image;
    docker.Registry := Registry image;
    docker.Tag := tag;
    docker.RawJSONStream := true |} in
  record (PullImageCall pullOpts auth) ;;
  match stream with
  | Some e =>
      ret (None, Some ("Failed to process json stream for image: "
                         ++ Image_String image ++ ", error: " ++ e)%string)
  | None =>
      match docker.PullImage client pullOpts auth with
      | Some e =>
          ret (None, Some ("Failed to pull image " ++ Image_String image
                             ++ ", error: " ++ e)%string)
      | None => ret (Some (New (NameWithRegistry image) tag), None)
      end
  end.

(** [func PullDockerImage(client, image, auth, force)] *)
Definition PullDockerImage (client : docker.Client) (image : ImageName)
    (auth : docker.AuthConfiguration) (force : bool)
    : Docker (option ImageName * option error) :=
  r <- resolveTag client image force ;;
  let '(tag, err) := r in
  match err with
  | Some e => ret (None, Some e)
  | None => pullTag client image auth tag
  end.

Definition bridgeCreateOpts : docker.CreateContainerOptions :=
  {| docker.Config := {|
       docker.Image := emptyImageName;
       docker.Cmd := ["/bin/sh"; "-c"; "while true; do sleep 1; done"] |} |}.

Definition bridgeRemoveOpts (container : docker.Container)
    : docker.RemoveContainerOptions :=
  {| docker.RemoveID := docker.ID container;
     docker.Force := true;
     docker.RemoveVolumes := true |}.

(** Lines 117-126 of [GetBridgeIp]: what the [return] statements after the
    [defer] assign to the named results [(ip, err)]. *)
Definition bridgeProbe (client : docker.Client) (container : docker.Container)
    : Docker (string * option error) :=
  record (StartContainerCall (docker.ID container)) ;;
  match docker.StartContainer client (docker.ID container) with
  | Some e =>
      ret ("", Some ("Failed to start dummy network container "
                       ++ trunc12 (docker.ID container) ++ ", error: " ++ e)%string)
  | None =>
      record (InspectContainerCall (docker.ID container)) ;;
      let '(inspect, err) := docker.InspectContainer client (docker.ID container) in
      match err with
      | Some e =>
          ret ("", Some ("Failed to inspect dummy network container "
                           ++ trunc12 (docker.ID container) ++ ", error: " ++ e)%string)
      | None => ret (docker.Gateway (docker.Network inspect), None)
      end
  end.

(** The deferred closure of [GetBridgeIp], run after the named results have
    been assigned: [if err2 := RemoveContainer(..); err2 != nil && err == nil
    { err = err2 }]. *)
Definition bridgeCleanup (client : docker.Client) (container : docker.Container)
    (results : string * option error) : Docker (string * option error) :=
  let '(ip, err) := results in
  record (RemoveContainerCall (bridgeRemoveOpts container)) ;;
  match docker.RemoveContainer client (bridgeRemoveOpts container), err with
  | Some err2, None => ret (ip, Some err2)
  | _, _ => ret (ip, err)
  end.

(** Lines 86-94 of [GetBridgeIp]: the empty image is pulled when the engine
    does not have it; the result is the error the function returns at this
    point, if any. *)
Definition bridgeEnsureImage (client : docker.Client) : Docker (option error) :=
  record (InspectImageCall emptyImageName) ;;
  match docker.InspectImage client emptyImageName with
  | Some e =>
      if String.eqb e "no such image" then
        r <- PullDockerImage client (NewFromString emptyImageName)
               {| docker.Username := ""; docker.Password := "";
                  docker.Email := ""; docker.ServerAddress := "" |} false ;;
        ret (snd r)
      else
        ret (Some ("Failed to inspect image " ++ emptyImageName
                     ++ ", error: " ++ e)%string)
  | None => ret None
  end.

(** [func GetBridgeIp(client) (ip string, err error)] *)
Definition GetBridgeIp (client : docker.Client) : Docker (string * option error) :=
  ensured <- bridgeEnsureImage client ;;
  match ensured with
  | Some e => ret ("", Some e)
  | None =>
      record (CreateContainerCall bridgeCreateOpts) ;;
      let '(container, err) := docker.CreateContainer client bridgeCreateOpts in
      match err with
      | Some e =>
          ret ("", Some ("Failed to create dummy network container, error: " ++ e)%string)
      | None =>
          results <- bridgeProbe client container ;;
          bridgeCleanup client container results
      end
  end.

(** What [listImagesInDocker] returns, apart from the log. *)
Definition localListing (client : docker.Client) (image : ImageName)
    : list ImageName * option error :=
  fst (runState (listImagesInDocker client image) []).

(** The statement of the local lister in words: of one image, the first
    repository tag that [image] contains, if there is one. *)
Definition firstContained (image : ImageName) (img : docker.APIImages)
    : list ImageName :=
  match find (fun tag => Contains image (NewFromString tag))
             (docker.RepoTags img) with
  | Some tag => [NewFromString tag]
  | None => []
  end.

End Compose.

(** ** Client configuration *)

(** [type DockerClientConfig struct] *)
Record DockerClientConfig := {
  Host : string;
  Tlsverify : bool;
  Tlscacert : string;
  Tlscert : string;
  Tlskey : string
}.

(** The constructor of go-dockerclient that a configuration leads to, with
    its arguments in the order of the Go signatures
    [NewTLSClient(endpoint, cert, key, ca)] and [NewClient(endpoint)]. *)
Inductive Dial :=
| NewTLSClient (endpoint cert key ca : string)
| NewClient (endpoint : string).

Section ClientConfig.

(** [os.Getenv], and [util.StringOr] of the repository's package [util],
    which is not part of this file. *)
Variable Getenv : string -> string.
Variable StringOr : string -> string -> string.

(** [func NewDockerClientConfig()] *)
Definition NewDockerClientConfig : DockerClientConfig :=
  let certPath := StringOr (Getenv "DOCKER_CERT_PATH") "~/.docker" in
  {| Host := Getenv "DOCKER_HOST";
     Tlsverify := String.eqb (Getenv "DOCKER_TLS_VERIFY") "1"
                  || String.eqb (Getenv "DOCKER_TLS_VERIFY") "yes";
     Tlscacert := (certPath ++ "/ca.pem")%string;
     Tlscert := (certPath ++ "/cert.pem")%string;
     Tlskey := (certPath ++ "/key.pem")%string |}.

(** [func NewDockerClientFromConfig(config)]: the client is the result of
    one of the two constructors. *)
Definition NewDockerClientFromConfig (config : DockerClientConfig) : Dial :=
  if Tlsverify config then
    NewTLSClient (Host config) (Tlscert config) (Tlskey config) (Tlscacert config)
  else NewClient (Host config).

(** [func NewDockerClient()] *)
Definition NewDockerClient : Dial :=
  NewDockerClientFromConfig NewDockerClientConfig.

End ClientConfig.

(** ** A reference implementation of the [imagename] interface

    A small executable stand-in for the external package, used to run the
    code above on concrete image names: [name:tag] strings, versions of up to
    three numeric components with an optional [v] prefix, the wildcards
    [x], [X] and [*], and ranges of the form [1.x] or [1.2.x]. *)
Module Ref.

Fixpoint split_last (c : ascii) (s : string) : option (string * string) :=
  match s with
  | EmptyString => None
  | String a r =>
      match split_last c r with
      | Some (x, y) => Some (String a x, y)
      | None => if Ascii.eqb a c then Some (EmptyString, r) else None
      end
  end.

Fixpoint split_first (c : ascii) (s : string) : option (string * string) :=
  match s with
  | EmptyString => None
  | String a r =>
      if Ascii.eqb a c then Some (EmptyString, r)
      else match split_first c r with
           | Some (x, y) => Some (String a x, y)
           | None => None
           end
  end.

Fixpoint contains_char (c : ascii) (s : string) : bool :=
  match s with
  | EmptyString => false
  | String a r => Ascii.eqb a c || contains_char c r
  end.

Fixpoint fields_aux (c : ascii) (s : string) (cur : string) : list string :=
  match s with
  | EmptyString => [cur]
  | String a r =>
      if Ascii.eqb a c then cur :: fields_aux c r EmptyString
      else fields_aux c r (cur ++ String a EmptyString)%string
  end.

(** [strings.Split(s, c)] *)
Definition fields (c : ascii) (s : string) : list string :=
  fields_aux c s EmptyString.

Definition digit (a : ascii) : option nat :=
  let n := nat_of_ascii a in
  if ((48 <=? n) && (n <=? 57))%nat then Some (n - 48) else None.

Fixpoint number_aux (s : string) (acc : nat) : option nat :=
  match s with
  | EmptyString => Some acc
  | String a r =>
      match digit a with
      | Some d => number_aux r (10 * acc + d)
      | None => None
      end
  end.

Definition number (s : string) : option nat :=
  match s with
  | EmptyString => None
  | _ => number_aux s 0
  end.

Definition version := (nat * nat * nat)%type.

Definition trim_v (s : string) : string :=
  match s with
  | String "v"%char r => r
  | _ => s
  end.

Definition parse_version (tag : string) : option version :=
  match List.map number (fields "."%char (trim_v tag)) with
  | [Some a] => Some (a, 0, 0)
  | [Some a; Some b] => Some (a, b, 0)
  | [Some a; Some b; Some c] => Some (a, b, c)
  | _ => None
  end.

Definition less (v w : version) : bool :=
  let '(a, b, c) := v in
  let '(a', b', c') := w in
  ((a <? a') || ((a =? a') && ((b <? b') || ((b =? b') && (c <? c')))))%nat.

Definition wildcard (s : string) : bool :=
  String.eqb s "x" || String.eqb s "X" || String.eqb s "*".

(** The numeric prefix of a range such as [1.x] or [1.2.x]. *)
Definition parse_range (tag : string) : option (list nat) :=
  match fields "."%char tag with
  | [a; w] =>
      match number a with
      | Some a => if wildcard w then Some [a] else None
      | None => None
      end
  | [a; b; w] =>
      match number a, number b with
      | Some a, Some b => if wildcard w then Some [a; b] else None
      | Some a, None => if wildcard b && wildcard w then Some [a] else None
      | _, _ => None
      end
  | _ => None
  end.

Definition in_range (prefix : list nat) (v : version) : bool :=
  let '(a, b, c) := v in
  match prefix with
  | [a'] => (a =? a')%nat
  | [a'; b'] => ((a =? a') && (b =? b'))%nat
  | _ => false
  end.

Definition new (name tag : string) : ImageName :=
  match split_first "/"%char name with
  | Some (host, rest) =>
      if contains_char "."%char host then
        {| Registry := host; Name := rest; Tag := tag |}
      else {| Registry := ""; Name := name; Tag := tag |}
  | None => {| Registry := ""; Name := name; Tag := tag |}
  end.

Definition new_from_string (s : string) : ImageName :=
  match split_last ":"%char s with
  | Some (name, tag) =>
      if contains_char "/"%char tag then new s "" else new name tag
  | None => new s ""
  end.

Definition name_with_registry (img : ImageName) : string :=
  if String.eqb (Registry img) "" then Name img
  else (Registry img ++ "/" ++ Name img)%string.

Definition get_tag (img : ImageName) : string :=
  if String.eqb (Tag img) "" then Latest else Tag img.

Definition has_version (img : ImageName) : bool :=
  match parse_version (Tag img) with Some _ => true | None => false end.

Definition tag_as_version (img : ImageName) : version :=
  match parse_version (Tag img) with Some v => v | None => (0, 0, 0) end.

Definition has_version_range (img : ImageName) : bool :=
  match parse_range (Tag img) with Some _ => true | None => false end.

Definition all (img : ImageName) : bool := wildcard (Tag img).

Definition same_kind (a b : ImageName) : bool :=
  String.eqb (Registry a) (Registry b) && String.eqb (Name a) (Name b).

Definition contains (img b : ImageName) : bool :=
  same_kind img b &&
  (all img
   || match parse_range (Tag img) with
      | Some prefix =>
          match parse_version (Tag b) with
          | Some v => in_range prefix v
          | None => false
          end
      | None => String.eqb (get_tag img) (get_tag b)
      end).

Definition image_string (img : ImageName) : string :=
  (name_with_registry img ++ ":" ++ get_tag img)%string.

#[export] Instance api : API := {|
  Version := version;
  New := new;
  NewFromString := new_from_string;
  NameWithRegistry := name_with_registry;
  GetTag := get_tag;
  HasVersion := has_version;
  HasVersionRange := has_version_range;
  All := all;
  TagAsVersion := tag_as_version;
  Less := less;
  Contains := contains;
  Image_String := image_string
|}.

End Ref.

(** ** Concrete engines and registries *)
Module Scenario.
Import Ref.

Definition noAuth : docker.AuthConfiguration :=
  {| docker.Username := ""; docker.Password := "";
     docker.Email := ""; docker.ServerAddress := "" |}.

Definition probe : docker.Container :=
  {| docker.ID := "0123456789abcdef";
     docker.Network := {| docker.Gateway := "172.17.42.1" |} |}.

(** An engine that holds the images [local], answers every other request
    without error and hands out the container [probe]. *)
Definition engine (local : list docker.APIImages) : docker.Client :=
  {| docker.InspectImage := fun _ => None;
     docker.ListImages := (local, None);
     docker.PullImage := fun _ _ => None;
     docker.CreateContainer := fun _ => (probe, None);
     docker.StartContainer := fun _ => None;
     docker.InspectContainer := fun _ => (probe, None);
     docker.RemoveContainer := fun _ => None |}.

(** The same engine with a failing [ListImages]. *)
Definition engineListFails (e : error) : docker.Client :=
  {| docker.InspectImage := fun _ => None;
     docker.ListImages := ([], Some e);
     docker.PullImage := fun _ _ => None;
     docker.CreateContainer := fun _ => (probe, None);
     docker.StartContainer := fun _ => None;
     docker.InspectContainer := fun _ => (probe, None);
     docker.RemoveContainer := fun _ => None |}.

(** An engine whose [StartContainer] and [RemoveContainer] both fail. *)
Definition engineStartFails (e e2 : error) : docker.Client :=
  {| docker.InspectImage := fun _ => None;
     docker.ListImages := ([], None);
     docker.PullImage := fun _ _ => None;
     docker.CreateContainer := fun _ => (probe, None);
     docker.StartContainer := fun _ => Some e;
     docker.InspectContainer := fun _ => (probe, None);
     docker.RemoveContainer := fun _ => Some e2 |}.

(** A registry that reports the tags [tags] for every repository. *)
Definition registry (tags : list string) : DockerHub :=
  {| List := fun _ => (List.map new_from_string tags, None) |}.

Definition repo (tag : string) : ImageName :=
  {| Registry := ""; Name := "repo"; Tag := tag |}.

(** An engine that answers [InspectImage], [PullImage], [CreateContainer]
    and [RemoveContainer] as given and holds no image. *)
Definition engineOf (inspect pull create remove : option error)
    : docker.Client :=
  {| docker.InspectImage := fun _ => inspect;
     docker.ListImages := ([], None);
     docker.PullImage := fun _ _ => pull;
     docker.CreateContainer := fun _ => (probe, create);
     docker.StartContainer := fun _ => None;
     docker.InspectContainer := fun _ => (probe, None);
     docker.RemoveContainer := fun _ => remove |}.

(** A registry whose listing fails. *)
Definition registryFails (e : error) : DockerHub :=
  {| List := fun _ => ([], Some e) |}.

(** An environment in which only the variables of [vars] are set. *)
Fixpoint getenv (vars : list (string * string)) (name : string) : string :=
  match vars with
  | [] => ""
  | (k, v) :: rest => if String.eqb k name then v else getenv rest name
  end.

(** A [StringOr] that falls back on its second argument when the first is
    empty. *)
Definition stringOr (s fallback : string) : string :=
  if String.eqb s "" then fallback else s.

(** Three local images: one with several tags, one without, one with a
    single tag. *)
Definition localImages : list docker.APIImages :=
  [{| docker.RepoTags := ["other:1.0.0"; "repo:1.0.0"; "repo:1.1.0"] |};
   {| docker.RepoTags := [] |};
   {| docker.RepoTags := ["repo:1.2.0"] |}].

(** The pull request for [repo:tag]. *)
Definition pullOf (tag : string) : Call :=
  PullImageCall
    {| docker.Repository := "repo"; docker.Registry := "";
       docker.Tag := tag; docker.RawJSONStream := true |} noAuth.

End Scenario.

(** * Properties *)

(** ** The scan of [findMostRecentTag] *)
Section SelectionFacts.
Context {api : API}.
Variable image : ImageName.

Lemma isLatest_true c : isLatest c = true <-> GetTag c = Latest.
Proof. unfold isLatest. apply String.eqb_eq. Qed.

Lemma isLatest_false c : isLatest c = false <-> GetTag c <> Latest.
Proof. unfold isLatest. apply String.eqb_neq. Qed.

(** One turn of the loop, case by case. *)
Lemma loop_skip c rest img :
  Contains image c = false ->
  findMostRecentTag_loop image (c :: rest) img
  = findMostRecentTag_loop image rest img.
Proof. intros H. simpl. rewrite H. reflexivity. Qed.

Lemma loop_latest c rest img :
  Contains image c = true -> GetTag c = Latest ->
  findMostRecentTag_loop image (c :: rest) img = Some c.
Proof.
  intros H L. simpl. rewrite H. apply String.eqb_eq in L. rewrite L.
  reflexivity.
Qed.

Lemma loop_first c rest :
  Contains image c = true -> GetTag c <> Latest ->
  findMostRecentTag_loop image (c :: rest) None
  = findMostRecentTag_loop image rest (Some c).
Proof.
  intros H L. simpl. rewrite H. apply String.eqb_neq in L. rewrite L.
  reflexivity.
Qed.

Lemma loop_next c rest cur :
  Contains image c = true -> GetTag c <> Latest ->
  findMostRecentTag_loop image (c :: rest) (Some cur)
  = findMostRecentTag_loop image rest
      (if HasVersion c && HasVersion cur
          && Less (TagAsVersion cur) (TagAsVersion c)
       then Some c else Some cur).
Proof.
  intros H L. simpl. rewrite H. apply String.eqb_neq in L. rewrite L.
  simpl. destruct (HasVersion c); simpl; [| reflexivity].
  destruct (HasVersion cur); simpl; [| reflexivity].
  destruct (Less _ _); reflexivity.
Qed.

(** With an applicable [latest] in the list the scan returns the first one,
    whatever it has kept so far. *)
Lemma loop_finds_latest list img :
  (exists c, In c list /\ applicableLatest image c = true) ->
  findMostRecentTag_loop image list img = find (applicableLatest image) list.
Proof.
  revert img. induction list as [| c rest IH]; intros img [x [Hin Hx]].
  - destruct Hin.
  - cbn [find]. unfold applicableLatest, applicable in *.
    destruct (Contains image c) eqn:Hc; cbn [andb].
    + destruct (isLatest c) eqn:Hl.
      * apply loop_latest; [assumption | now apply isLatest_true].
      * apply isLatest_false in Hl.
        assert (Hrest : exists c0, In c0 rest /\ Contains image c0 && isLatest c0 = true).
        { destruct Hin as [-> | Hin]; [| now exists x].
          rewrite Hc in Hx. cbn in Hx. apply isLatest_true in Hx.
          contradiction. }
        destruct img as [cur |].
        -- rewrite loop_next by assumption. now apply IH.
        -- rewrite loop_first by assumption. now apply IH.
    + rewrite loop_skip by assumption. apply IH.
      destruct Hin as [-> | Hin]; [| now exists x].
      rewrite Hc in Hx. discriminate.
Qed.

(** Without an applicable [latest], a kept candidate that has no version is
    never replaced. *)
Lemma loop_keeps_unversioned list cur :
  HasVersion cur = false ->
  (forall c, In c list -> applicableLatest image c = false) ->
  findMostRecentTag_loop image list (Some cur) = Some cur.
Proof.
  intros Hv. induction list as [| c rest IH]; intros Hno; [reflexivity |].
  assert (Hc := Hno c (or_introl eq_refl)).
  unfold applicableLatest, applicable in Hc.
  destruct (Contains image c) eqn:Hin.
  - cbn in Hc. apply isLatest_false in Hc.
    rewrite loop_next by assumption. rewrite Hv, andb_false_r. cbn.
    apply IH. intros; apply Hno; now right.
  - rewrite loop_skip by assumption. apply IH. intros; apply Hno; now right.
Qed.

(** Until the first applicable candidate nothing happens. *)
Lemma loop_from_first list c0 :
  find (applicable image) list = Some c0 ->
  (forall c, In c list -> applicableLatest image c = false) ->
  exists rest,
    findMostRecentTag_loop image list None
    = findMostRecentTag_loop image rest (Some c0)
    /\ (forall c, In c list -> applicable image c = true -> c = c0 \/ In c rest)
    /\ (forall c, In c rest -> In c list)
    /\ In c0 list /\ applicable image c0 = true.
Proof.
  induction list as [| c rest IH]; intros Hf Hno; [discriminate |].
  cbn [find] in Hf. destruct (applicable image c) eqn:Hc.
  - injection Hf as ->. exists rest.
    assert (Hl := Hno c0 (or_introl eq_refl)).
    unfold applicableLatest in Hl. rewrite Hc in Hl. cbn in Hl.
    apply isLatest_false in Hl.
    repeat split.
    + now apply loop_first.
    + intros c [-> | Hin] _; [now left | now right].
    + intros c Hin; now right.
    + now left.
    + assumption.
  - destruct (IH Hf) as [rest' [E [Hcov [Hsub [Hin0 Happ]]]]].
    { intros; apply Hno; now right. }
    exists rest'. repeat split.
    + rewrite loop_skip by assumption. exact E.
    + intros x [-> | Hin] Hx; [congruence | now apply Hcov].
    + intros x Hin; right; now apply Hsub.
    + now right.
    + assumption.
Qed.

End SelectionFacts.

(** ** The scan under a version order *)
Section SelectionOrder.
Context {api : API}.
Variable image : ImageName.

(** What is asked of [semver]'s [Less]: a strict order. *)
Hypothesis Less_irrefl : forall v, Less v v = false.
Hypothesis Less_trans :
  forall u v w, Less u v = true -> Less v w = true -> Less u w = true.

(** Once a candidate with a version is kept, the scan ends on a candidate
    with a version that nothing applicable in the rest of the list exceeds. *)
Lemma loop_keeps_maximal list cur :
  HasVersion cur = true ->
  (forall c, In c list -> applicableLatest image c = false) ->
  exists r,
    findMostRecentTag_loop image list (Some cur) = Some r
    /\ (r = cur \/ (In r list /\ applicable image r = true
                    /\ Less (TagAsVersion cur) (TagAsVersion r) = true))
    /\ HasVersion r = true
    /\ (forall c, In c list -> applicable image c = true ->
                  HasVersion c = true -> Less (TagAsVersion r) (TagAsVersion c) = false).
Proof.
  revert cur. induction list as [| c rest IH]; intros cur Hv Hno.
  - exists cur. repeat split; auto. intros c [].
  - assert (Hrest : forall x, In x rest -> applicableLatest image x = false)
      by (intros; apply Hno; now right).
    assert (Hc := Hno c (or_introl eq_refl)).
    unfold applicableLatest, applicable in Hc.
    destruct (Contains image c) eqn:Hin.
    + cbn in Hc. apply isLatest_false in Hc.
      rewrite loop_next by assumption. rewrite Hv, andb_true_r.
      destruct (HasVersion c) eqn:Hvc; cbn [andb].
      * destruct (Less (TagAsVersion cur) (TagAsVersion c)) eqn:Hlt.
        -- destruct (IH c Hvc Hrest) as [r [E [Hr [Hvr Hmax]]]].
           assert (Hcr : Less (TagAsVersion r) (TagAsVersion c) = false).
           { destruct Hr as [-> | [_ [_ Hlt']]]; [apply Less_irrefl |].
             destruct (Less (TagAsVersion r) (TagAsVersion c)) eqn:X; [| reflexivity].
             rewrite <- (Less_irrefl (TagAsVersion c)). symmetry.
             now apply Less_trans with (TagAsVersion r). }
           exists r. repeat split; auto.
           ++ right. destruct Hr as [-> | [Hir [Har Hlt']]].
              ** repeat split; auto. now left.
              ** repeat split; auto; [now right |].
                 now apply Less_trans with (TagAsVersion c).
           ++ intros x [<- | Hx] Hax Hvx; auto.
        -- destruct (IH cur Hv Hrest) as [r [E [Hr [Hvr Hmax]]]].
           exists r. repeat split; auto.
           ++ destruct Hr as [-> | [Hir [Har Hlt']]]; [now left |].
              right. repeat split; auto. now right.
           ++ intros x [<- | Hx] Hax Hvx; auto.
              destruct Hr as [-> | [_ [_ Hlt']]]; [assumption |].
              destruct (Less (TagAsVersion r) (TagAsVersion c)) eqn:X; [| reflexivity].
              rewrite <- Hlt. symmetry. now apply Less_trans with (TagAsVersion r).
      * destruct (IH cur Hv Hrest) as [r [E [Hr [Hvr Hmax]]]].
        exists r. repeat split; auto.
        -- destruct Hr as [-> | [Hir [Har Hlt']]]; [now left |].
           right. repeat split; auto. now right.
        -- intros x [<- | Hx] Hax Hvx; [congruence | auto].
    + rewrite loop_skip by assumption.
      destruct (IH cur Hv Hrest) as [r [E [Hr [Hvr Hmax]]]].
      exists r. repeat split; auto.
      * destruct Hr as [-> | [Hir [Har Hlt']]]; [now left |].
        right. repeat split; auto. now right.
      * intros x [<- | Hx] Hax Hvx; [unfold applicable in Hax; congruence | auto].
Qed.

(** The selection when the first applicable candidate has a version and no
    applicable candidate is [latest]. *)
Lemma findMostRecentTag_maximal list c0 :
  find (applicable image) list = Some c0 ->
  HasVersion c0 = true ->
  (forall c, In c list -> applicableLatest image c = false) ->
  exists r,
    findMostRecentTag image list = Some r
    /\ In r list /\ applicable image r = true /\ HasVersion r = true
    /\ (forall c, In c list -> applicable image c = true ->
                  HasVersion c = true -> Less (TagAsVersion r) (TagAsVersion c) = false).
Proof.
  intros Hf Hv Hno.
  destruct (loop_from_first image list c0 Hf Hno)
    as [rest [E [Hcov [Hsub [Hin0 Happ0]]]]].
  destruct (loop_keeps_maximal rest c0 Hv) as [r [Er [Hr [Hvr Hmax]]]].
  { intros c Hc. apply Hno. now apply Hsub. }
  exists r. unfold findMostRecentTag. rewrite E, Er.
  assert (Hr0 : Less (TagAsVersion r) (TagAsVersion c0) = false).
  { destruct Hr as [-> | [_ [_ Hlt]]]; [apply Less_irrefl |].
    destruct (Less (TagAsVersion r) (TagAsVersion c0)) eqn:X; [| reflexivity].
    rewrite <- (Less_irrefl (TagAsVersion c0)). symmetry.
    now apply Less_trans with (TagAsVersion r). }
  repeat split; auto.
  - destruct Hr as [-> | [Hir _]]; [assumption | now apply Hsub].
  - destruct Hr as [-> | [_ [Har _]]]; assumption.
  - intros c Hc Hac Hvc. destruct (Hcov c Hc Hac) as [-> | Hin]; auto.
Qed.

(** A candidate that is not newer than the kept one, and is not the kept one,
    is not what the scan ends on. *)
Lemma loop_never_adopts list cur c2 :
  cur <> c2 ->
  HasVersion cur = false \/ Less (TagAsVersion cur) (TagAsVersion c2) = false ->
  isLatest c2 = false ->
  findMostRecentTag_loop image list (Some cur) <> Some c2.
Proof.
  intros Hne Hcur Hl2. revert cur Hne Hcur.
  induction list as [| c rest IH]; intros cur Hne Hcur.
  - cbn. congruence.
  - destruct (Contains image c) eqn:Hin.
    + destruct (isLatest c) eqn:Hl.
      * rewrite loop_latest by (auto; now apply isLatest_true).
        intros E. injection E as ->. congruence.
      * apply isLatest_false in Hl. rewrite loop_next by assumption.
        destruct (HasVersion c && HasVersion cur
                  && Less (TagAsVersion cur) (TagAsVersion c)) eqn:Hup.
        -- apply andb_prop in Hup as [Hup Hlt].
           apply andb_prop in Hup as [Hvc Hvcur].
           destruct Hcur as [Hcur | Hcur]; [congruence |].
           apply IH.
           ++ intros ->. congruence.
           ++ right.
              destruct (Less (TagAsVersion c) (TagAsVersion c2)) eqn:X;
                [| reflexivity].
              rewrite <- Hcur. symmetry.
              now apply Less_trans with (TagAsVersion c).
        -- now apply IH.
    + rewrite loop_skip by assumption. now apply IH.
Qed.

End SelectionOrder.

Section SelectionPrefix.
Context {api : API}.
Variable image : ImageName.

(** A list without applicable candidates leaves the kept one as it is. *)
Lemma loop_nothing_applicable list img :
  (forall c, In c list -> applicable image c = false) ->
  findMostRecentTag_loop image list img = img.
Proof.
  induction list as [| c rest IH]; intros Hno; [reflexivity |].
  rewrite loop_skip by (apply (Hno c); now left).
  apply IH. intros; apply Hno; now right.
Qed.

(** A prefix without an applicable [latest] is scanned to its end. *)
Lemma loop_app prefix rest img :
  (forall c, In c prefix -> applicableLatest image c = false) ->
  findMostRecentTag_loop image (prefix ++ rest) img
  = findMostRecentTag_loop image rest
      (findMostRecentTag_loop image prefix img).
Proof.
  revert img. induction prefix as [| c prefix IH]; intros img Hno;
    [reflexivity |].
  assert (Hc := Hno c (or_introl eq_refl)).
  assert (Hrest : forall x, In x prefix -> applicableLatest image x = false)
    by (intros; apply Hno; now right).
  unfold applicableLatest, applicable in Hc.
  cbn [app]. destruct (Contains image c) eqn:Hin.
  - cbn in Hc. apply isLatest_false in Hc. destruct img as [cur |].
    + rewrite !loop_next by assumption. now apply IH.
    + rewrite !loop_first by assumption. now apply IH.
  - rewrite !loop_skip by assumption. now apply IH.
Qed.

Lemma find_app_some {A} (f : A -> bool) (l1 l2 : list A) x :
  find f l1 = Some x -> find f (l1 ++ l2) = Some x.
Proof.
  induction l1 as [| a l1 IH]; [discriminate |].
  cbn. destruct (f a); auto.
Qed.

Lemma find_exists {A} (f : A -> bool) (l : list A) x :
  In x l -> f x = true -> exists y, find f l = Some y.
Proof.
  intros Hin Hx. destruct (find f l) eqn:E; [eauto |].
  now rewrite (find_none f l E x Hin) in Hx.
Qed.

(** With an applicable [latest] in the list, the selection is an applicable
    candidate tagged [latest]. *)
Lemma findMostRecentTag_latest_in list c :
  In c list -> Contains image c = true -> GetTag c = Latest ->
  exists x,
    findMostRecentTag image list = Some x
    /\ In x list /\ Contains image x = true /\ GetTag x = Latest.
Proof.
  intros Hin Hc Hl.
  assert (Hal : applicableLatest image c = true).
  { unfold applicableLatest, applicable. rewrite Hc. now apply isLatest_true. }
  destruct (find_exists (applicableLatest image) list c Hin Hal) as [x Hx].
  exists x. unfold findMostRecentTag.
  rewrite (loop_finds_latest image list None) by eauto.
  destruct (find_some _ _ Hx) as [Hxin Hxp].
  unfold applicableLatest, applicable in Hxp.
  apply andb_prop in Hxp as [Hxc Hxl]. apply isLatest_true in Hxl.
  repeat split; auto.
Qed.

End SelectionPrefix.

Section SelectionTheorems.
Context {api : API}.
Variable image : ImageName.

(** C4. When the list holds an applicable candidate whose tag is [latest],
    [findMostRecentTag] returns an applicable candidate tagged [latest]:
    the first one of the list, which is the given one when it is the only
    one, whatever the versions of the other candidates. *)
Theorem findMostRecentTag_latest_wins (list : list ImageName) (c : ImageName) :
  In c list -> Contains image c = true -> GetTag c = Latest ->
  exists r,
    findMostRecentTag image list = Some r
    /\ find (applicableLatest image) list = Some r
    /\ In r list /\ Contains image r = true /\ GetTag r = Latest
    /\ ((forall c', In c' list -> Contains image c' = true ->
                    GetTag c' = Latest -> c' = c) -> r = c).
Proof.
  intros Hin Hc Hl.
  assert (Hal : applicableLatest image c = true).
  { unfold applicableLatest, applicable. rewrite Hc. now apply isLatest_true. }
  destruct (find_exists (applicableLatest image) list c Hin Hal) as [r Hr].
  exists r. unfold findMostRecentTag.
  rewrite (loop_finds_latest image list None) by eauto.
  destruct (find_some _ _ Hr) as [Hrin Hrp].
  unfold applicableLatest, applicable in Hrp.
  apply andb_prop in Hrp as [Hrc Hrl]. apply isLatest_true in Hrl.
  repeat split; auto.
Qed.

Hypothesis Less_irrefl : forall v, Less v v = false.
Hypothesis Less_trans :
  forall u v w, Less u v = true -> Less v w = true -> Less u w = true.

(** C1, amended. When no applicable candidate is tagged [latest] and the
    first applicable candidate of the list has a parseable version,
    [findMostRecentTag] returns an applicable candidate with a parseable
    version that no applicable candidate of the list exceeds; it is
    strictly greater than every applicable candidate it can be compared
    with. *)
Theorem findMostRecentTag_greatest (list : list ImageName) (c0 : ImageName) :
  find (applicable image) list = Some c0 ->
  HasVersion c0 = true ->
  (forall c, In c list -> Contains image c = true -> GetTag c <> Latest) ->
  exists r,
    findMostRecentTag image list = Some r
    /\ In r list /\ Contains image r = true /\ HasVersion r = true
    /\ (forall c, In c list -> Contains image c = true ->
                  HasVersion c = true ->
                  Less (TagAsVersion r) (TagAsVersion c) = false)
    /\ (forall c, In c list -> Contains image c = true ->
                  HasVersion c = true ->
                  Less (TagAsVersion c) (TagAsVersion r) = true
                  \/ Less (TagAsVersion r) (TagAsVersion c) = true ->
                  Less (TagAsVersion c) (TagAsVersion r) = true).
Proof.
  intros Hf Hv Hno.
  destruct (findMostRecentTag_maximal image Less_irrefl Less_trans list c0 Hf Hv)
    as [r [E [Hin [Ha [Hvr Hmax]]]]].
  { intros c Hc. unfold applicableLatest, applicable.
    destruct (Contains image c) eqn:Hcc; [| reflexivity].
    cbn. apply isLatest_false. now apply Hno. }
  exists r. repeat split; auto.
  intros c Hc Hac Hvc [H | H]; [assumption |].
  rewrite (Hmax c Hc Hac Hvc) in H. discriminate.
Qed.

(** Candidates that are neither older nor newer than one another stay so
    through a third one: with the two hypotheses above, [Less] is a strict
    weak order. *)
Hypothesis Less_compares :
  forall u v w, Less u w = true -> Less u v = true \/ Less v w = true.

(** What the scan keeps after a prefix that ends on an applicable candidate
    with a version. *)
Lemma loop_prefix_kept prefix c1 :
  (forall c, In c (prefix ++ [c1]) -> applicableLatest image c = false) ->
  applicable image c1 = true -> HasVersion c1 = true ->
  exists b,
    findMostRecentTag_loop image (prefix ++ [c1]) None = Some b
    /\ In b (prefix ++ [c1])
    /\ (HasVersion b = false
        \/ Less (TagAsVersion b) (TagAsVersion c1) = false).
Proof.
  intros Hno Ha Hv.
  assert (Hin1 : In c1 (prefix ++ [c1])) by (apply in_or_app; right; now left).
  destruct (find_exists (applicable image) _ c1 Hin1 Ha) as [c0 Hf].
  destruct (HasVersion c0) eqn:Hv0.
  - destruct (findMostRecentTag_maximal image Less_irrefl Less_trans _ c0 Hf Hv0 Hno)
      as [r [E [Hin [_ [_ Hmax]]]]].
    exists r. repeat split; auto.
  - destruct (loop_from_first image _ c0 Hf Hno) as [rest [E [_ [Hsub [Hin0 _]]]]].
    exists c0. rewrite E. repeat split; auto.
    apply loop_keeps_unversioned; auto.
Qed.

(** Ties favour the candidate seen first: a candidate that is not newer
    than an applicable candidate seen before it is not selected. *)
Lemma findMostRecentTag_tie_keeps_earlier prefix c1 rest c2 :
  applicable image c1 = true -> HasVersion c1 = true ->
  Less (TagAsVersion c1) (TagAsVersion c2) = false ->
  c1 <> c2 -> ~ In c2 prefix -> isLatest c2 = false ->
  findMostRecentTag image (prefix ++ c1 :: rest) <> Some c2.
Proof.
  intros Ha Hv Hle Hne Hnin Hl2. unfold findMostRecentTag.
  replace (prefix ++ c1 :: rest) with ((prefix ++ [c1]) ++ rest)
    by (rewrite <- app_assoc; reflexivity).
  assert (Hseen : forall x, In x (prefix ++ [c1]) -> x <> c2).
  { intros x Hx ->. apply in_app_or in Hx as [Hx | [Hx | []]]; auto. }
  destruct (find (applicableLatest image) (prefix ++ [c1])) as [x |] eqn:Hfl.
  - rewrite (loop_finds_latest image _ None).
    + rewrite (find_app_some _ _ rest x Hfl). intros E. injection E as ->.
      apply (Hseen c2); [| reflexivity]. now apply (find_some _ _ Hfl).
    + exists x. destruct (find_some _ _ Hfl) as [Hx Hp]. split; auto.
      apply in_or_app. now left.
  - assert (Hno := find_none _ _ Hfl).
    rewrite loop_app by assumption.
    destruct (loop_prefix_kept prefix c1 Hno Ha Hv) as [b [E [Hb Hcmp]]].
    rewrite E. apply (loop_never_adopts image Less_trans); auto.
    destruct Hcmp as [Hcmp | Hcmp]; [now left | right].
    destruct (Less (TagAsVersion b) (TagAsVersion c2)) eqn:X; [| reflexivity].
    destruct (Less_compares _ (TagAsVersion c1) _ X); congruence.
Qed.

Lemma in_split_first (x : ImageName) (l : list ImageName) :
  In x l -> exists l1 l2, l = l1 ++ x :: l2 /\ ~ In x l1.
Proof.
  induction l as [| a l IH]; intros Hin; [destruct Hin |].
  destruct (ImageName_eq_dec a x) as [-> | Hne].
  - exists [], l. split; [reflexivity | intros []].
  - destruct Hin as [-> | Hin]; [congruence |].
    destruct (IH Hin) as [l1 [l2 [-> Hn]]].
    exists (a :: l1), l2. split; [reflexivity |].
    intros [-> | H]; [congruence | contradiction].
Qed.

(** The selected candidate is met before every applicable candidate that is
    as recent as it is. *)
Lemma selected_seenBefore list r r' :
  findMostRecentTag image list = Some r -> In r list ->
  applicable image r' = true -> HasVersion r' = true ->
  Less (TagAsVersion r') (TagAsVersion r) = false ->
  r <> r' -> isLatest r = false ->
  seenBefore r r' list.
Proof.
  intros E Hin Ha Hv Hle Hne Hl.
  destruct (in_split_first r list Hin) as [l1 [l2 [-> Hfirst]]].
  exists l1, l2. split; [reflexivity |]. intros Hin'.
  destruct (in_split _ _ Hin') as [m1 [m2 ->]].
  rewrite <- app_assoc in E. cbn [app] in E.
  revert E. apply findMostRecentTag_tie_keeps_earlier; auto.
  intros H. apply Hfirst. apply in_or_app. now left.
Qed.

End SelectionTheorems.

(** ** The reference order on versions *)

Lemma Ref_less_spec (a b c a' b' c' : nat) :
  Ref.less (a, b, c) (a', b', c') = true
  <-> a < a' \/ (a = a' /\ (b < b' \/ (b = b' /\ c < c'))).
Proof.
  unfold Ref.less.
  rewrite !orb_true_iff, !andb_true_iff, !orb_true_iff, !andb_true_iff,
    !Nat.ltb_lt, !Nat.eqb_eq.
  reflexivity.
Qed.

Lemma Ref_less_irrefl (v : Ref.version) : Ref.less v v = false.
Proof.
  destruct v as [[a b] c]. apply not_true_iff_false.
  rewrite Ref_less_spec. lia.
Qed.

Lemma Ref_less_trans (u v w : Ref.version) :
  Ref.less u v = true -> Ref.less v w = true -> Ref.less u w = true.
Proof.
  destruct u as [[a b] c], v as [[a' b'] c'], w as [[a'' b''] c''].
  rewrite !Ref_less_spec. lia.
Qed.

Lemma Ref_less_compares (u v w : Ref.version) :
  Ref.less u w = true -> Ref.less u v = true \/ Ref.less v w = true.
Proof.
  destruct u as [[a b] c], v as [[a' b'] c'], w as [[a'' b''] c''].
  rewrite !Ref_less_spec. lia.
Qed.

(** ** The selection on concrete lists *)
Section SelectionExamples.
Import Scenario.
Existing Instance Ref.api.

Ltac each_candidate :=
  let c := fresh "c" in
  let H := fresh "H" in
  intros c H; repeat (destruct H as [<- | H]); try destruct H;
  vm_compute; try discriminate; try reflexivity; try tauto.

Lemma findMostRecentTag_latest_wins_witness :
  In (repo "latest") [repo "1.0.0"; repo "latest"; repo "2.0.0"]
  /\ Contains (repo "x") (repo "latest") = true
  /\ GetTag (repo "latest") = Latest
  /\ exists r,
       findMostRecentTag (repo "x") [repo "1.0.0"; repo "latest"; repo "2.0.0"]
       = Some r
       /\ GetTag r = Latest.
Proof.
  assert (Hin : In (repo "latest") [repo "1.0.0"; repo "latest"; repo "2.0.0"])
    by (right; left; reflexivity).
  assert (Hc : Contains (repo "x") (repo "latest") = true) by reflexivity.
  assert (Hl : GetTag (repo "latest") = Latest) by reflexivity.
  repeat split; try assumption.
  destruct (findMostRecentTag_latest_wins (repo "x")
              [repo "1.0.0"; repo "latest"; repo "2.0.0"] (repo "latest")
              Hin Hc Hl) as [r [E [_ [_ [_ [L _]]]]]].
  exists r. split; assumption.
Defined.

(** C1 as stated fails: in [repo:foo; repo:1.0.0] under the wildcard
    [repo:x] an applicable candidate has a version and none is [latest], yet
    the selection is [repo:foo], which has no version at all. *)
Lemma findMostRecentTag_greatest_counterexample :
  ~ (forall (image : ImageName) (list : list ImageName),
        (exists c, In c list /\ Contains image c = true
                   /\ HasVersion c = true) ->
        (forall c, In c list -> Contains image c = true ->
                   GetTag c <> Latest) ->
        exists r,
          findMostRecentTag image list = Some r
          /\ Contains image r = true /\ HasVersion r = true
          /\ (forall c, In c list -> Contains image c = true ->
                        HasVersion c = true ->
                        Less (TagAsVersion r) (TagAsVersion c) = false)).
Proof.
  intros claim.
  destruct (claim (repo "x") [repo "foo"; repo "1.0.0"])
    as [r [E [_ [Hv _]]]].
  - exists (repo "1.0.0"). repeat split. right; left; reflexivity.
  - each_candidate.
  - vm_compute in E. injection E as <-. vm_compute in Hv. discriminate.
Qed.

Lemma findMostRecentTag_greatest_witness :
  find (applicable (repo "x")) [repo "1.0.0"; repo "foo"; repo "2.0.0"]
  = Some (repo "1.0.0")
  /\ HasVersion (repo "1.0.0") = true
  /\ exists r,
       findMostRecentTag (repo "x") [repo "1.0.0"; repo "foo"; repo "2.0.0"]
       = Some r
       /\ HasVersion r = true
       /\ Less (TagAsVersion r) (TagAsVersion (repo "2.0.0")) = false.
Proof.
  assert (Hf : find (applicable (repo "x"))
                 [repo "1.0.0"; repo "foo"; repo "2.0.0"]
               = Some (repo "1.0.0")) by reflexivity.
  assert (Hv : HasVersion (repo "1.0.0") = true) by reflexivity.
  assert (Hno : forall c, In c [repo "1.0.0"; repo "foo"; repo "2.0.0"] ->
                          Contains (repo "x") c = true -> GetTag c <> Latest)
    by each_candidate.
  repeat split; try assumption.
  destruct (findMostRecentTag_greatest (api := Ref.api) (repo "x")
              Ref_less_irrefl Ref_less_trans
              [repo "1.0.0"; repo "foo"; repo "2.0.0"] (repo "1.0.0")
              Hf Hv Hno) as [r [E [_ [_ [Hvr [Hmax _]]]]]].
  exists r. repeat split; try assumption.
  apply Hmax; [right; right; left; reflexivity | reflexivity | reflexivity].
Defined.

(** C3 as stated fails: [repo:foo; repo:1.0.0] and its reversal hold no two
    applicable candidates of equal version, and the selections differ. *)
Lemma findMostRecentTag_permutation_counterexample :
  ~ (forall (image : ImageName) (l l' : list ImageName),
        Permutation l l' ->
        (forall c1 c2, In c1 l -> In c2 l ->
                       Contains image c1 = true -> Contains image c2 = true ->
                       HasVersion c1 = true -> HasVersion c2 = true ->
                       c1 <> c2 ->
                       Less (TagAsVersion c1) (TagAsVersion c2) = true
                       \/ Less (TagAsVersion c2) (TagAsVersion c1) = true) ->
        option_map Tag (findMostRecentTag image l)
        = option_map Tag (findMostRecentTag image l')).
Proof.
  intros claim.
  assert (E := claim (repo "x") [repo "foo"; repo "1.0.0"]
                 [repo "1.0.0"; repo "foo"] (perm_swap _ _ [])).
  assert (X : option_map Tag
                (findMostRecentTag (repo "x") [repo "foo"; repo "1.0.0"])
              <> option_map Tag
                   (findMostRecentTag (repo "x") [repo "1.0.0"; repo "foo"]))
    by (vm_compute; discriminate).
  apply X, E.
  intros c1 c2 H1 H2 _ _ Hv1 Hv2 Hne.
  destruct H1 as [<- | [<- | []]]; destruct H2 as [<- | [<- | []]];
    try (vm_compute in Hv1; discriminate);
    try (vm_compute in Hv2; discriminate).
  congruence.
Qed.

End SelectionExamples.

(** ** Listing, resolution and pull *)
Section ComposeFacts.
Context {api : API}.
Variable hub : DockerHub.
Variable stream : option error.

Local Arguments String.append : simpl never.

Lemma scanRepoTags_firstContained image img list :
  scanRepoTags image (docker.RepoTags img) list
  = list ++ firstContained image img.
Proof.
  unfold firstContained.
  induction (docker.RepoTags img) as [| tag rest IH]; cbn.
  - now rewrite app_nil_r.
  - destruct (Contains image (NewFromString tag)); [reflexivity | exact IH].
Qed.

Lemma scanImages_firstContained image all list :
  scanImages image all list
  = list ++ concat (List.map (firstContained image) all).
Proof.
  revert list. induction all as [| img rest IH]; intros list; cbn.
  - now rewrite app_nil_r.
  - rewrite IH, scanRepoTags_firstContained, app_assoc. reflexivity.
Qed.

Lemma firstContained_length image img : length (firstContained image img) <= 1.
Proof. unfold firstContained. destruct (find _ _); cbn; lia. Qed.

Lemma concat_firstContained_length image all :
  length (concat (List.map (firstContained image) all)) <= length all.
Proof.
  induction all as [| img rest IH]; cbn; [lia |].
  rewrite length_app. pose proof (firstContained_length image img). lia.
Qed.

Lemma run_listImagesInDocker client image log :
  runState (listImagesInDocker client image) log
  = (localListing client image, log ++ [ListImagesCall]).
Proof.
  unfold localListing, listImagesInDocker. cbn.
  destruct (docker.ListImages client) as [all [e |]]; reflexivity.
Qed.

Lemma localListing_eq client image :
  localListing client image
  = match docker.ListImages client with
    | (all, Some e) =>
        ([], Some ("Failed to list all images, error: " ++ e)%string)
    | (all, None) => (scanImages image all [], None)
    end.
Proof.
  unfold localListing, listImagesInDocker. cbn.
  destruct (docker.ListImages client) as [all [e |]]; reflexivity.
Qed.

(** C10. The local lister returns, image by image and in order, the first
    repository tag of the image that the target contains and nothing else
    of that image: at most one candidate per listed image. *)
Theorem listImagesInDocker_one_per_image (client : docker.Client)
    (image : ImageName) (log : list Call) :
  fst (fst (runState (listImagesInDocker client image) log))
  = match snd (docker.ListImages client) with
    | Some _ => []
    | None =>
        concat (List.map (firstContained image)
                         (fst (docker.ListImages client)))
    end
  /\ length (fst (fst (runState (listImagesInDocker client image) log)))
     <= length (fst (docker.ListImages client))
  /\ (forall img, length (firstContained image img) <= 1)
  /\ (forall tags1 tag tags2,
        (forall t, In t tags1 -> Contains image (NewFromString t) = false) ->
        Contains image (NewFromString tag) = true ->
        firstContained image {| docker.RepoTags := tags1 ++ tag :: tags2 |}
        = [NewFromString tag]).
Proof.
  rewrite run_listImagesInDocker, localListing_eq. cbn [fst].
  destruct (docker.ListImages client) as [all [e |]]; cbn [fst snd].
  - repeat split; cbn; try lia.
    + apply firstContained_length.
    + intros tags1 tag tags2 Hno Hc. unfold firstContained. cbn.
      induction tags1 as [| t tags1 IH]; cbn.
      * now rewrite Hc.
      * rewrite (Hno t) by now left. apply IH. intros; apply Hno; now right.
  - rewrite scanImages_firstContained. cbn [app]. repeat split.
    + apply concat_firstContained_length.
    + apply firstContained_length.
    + intros tags1 tag tags2 Hno Hc. unfold firstContained. cbn.
      induction tags1 as [| t tags1 IH]; cbn.
      * now rewrite Hc.
      * rewrite (Hno t) by now left. apply IH. intros; apply Hno; now right.
Qed.

Lemma run_listImagesInRegistry image log :
  runState (listImagesInRegistry hub image) log
  = (List hub image, log ++ [HubListCall image]).
Proof. reflexivity. Qed.

Lemma run_gatherCandidates client image force log :
  runState (gatherCandidates hub client image force) log
  = if len0 (fst (localListing client image)) || force
    then (List hub image, log ++ [ListImagesCall; HubListCall image])
    else (localListing client image, log ++ [ListImagesCall]).
Proof.
  unfold gatherCandidates. cbn [bind Monad_state runState].
  rewrite run_listImagesInDocker.
  destruct (len0 (fst (localListing client image)) || force).
  - rewrite run_listImagesInRegistry, <- app_assoc. reflexivity.
  - reflexivity.
Qed.

(** The selection of lines 145-151 on a listing [(list, err)]. *)
Lemma run_resolveTag client image force log :
  runState (resolveTag hub client image force) log
  = if HasVersionRange image || All image then
      let '(r, log') := runState (gatherCandidates hub client image force) log in
      (match snd r with
       | Some e => (Tag image, Some e)
       | None =>
           match findMostRecentTag image (fst r) with
           | Some recent => (Tag recent, None)
           | None => (Tag image, None)
           end
       end, log')
    else ((Tag image, None), log).
Proof.
  unfold resolveTag. destruct (HasVersionRange image || All image);
    [| reflexivity].
  cbn [bind Monad_state runState].
  destruct (runState (gatherCandidates hub client image force) log)
    as [[list [e |]] log']; cbn [fst snd]; [reflexivity |].
  destruct (findMostRecentTag image list); reflexivity.
Qed.

(** The request [PullDockerImage] sends for [tag]. *)
Lemma run_pullTag client image auth tag log :
  runState (pullTag stream client image auth tag) log
  = (match stream with
     | Some e =>
         (None, Some ("Failed to process json stream for image: "
                        ++ Image_String image ++ ", error: " ++ e)%string)
     | None =>
         match docker.PullImage client
                 {| docker.Repository := NameWithRegistry image;
                    docker.Registry := Registry image;
                    docker.Tag := tag;
                    docker.RawJSONStream := true |} auth with
         | Some e =>
             (None, Some ("Failed to pull image " ++ Image_String image
                            ++ ", error: " ++ e)%string)
         | None => (Some (New (NameWithRegistry image) tag), None)
         end
     end,
     log ++ [PullImageCall
               {| docker.Repository := NameWithRegistry image;
                  docker.Registry := Registry image;
                  docker.Tag := tag;
                  docker.RawJSONStream := true |} auth]).
Proof.
  unfold pullTag. cbn [bind Monad_state runState record].
  destruct stream as [e |]; [reflexivity |].
  destruct (docker.PullImage client _ auth); reflexivity.
Qed.

Lemma pullTag_success client image auth tag log :
  snd (fst (runState (pullTag stream client image auth tag) log)) = None ->
  fst (fst (runState (pullTag stream client image auth tag) log))
  = Some (New (NameWithRegistry image) tag).
Proof.
  rewrite run_pullTag. cbn [fst].
  destruct stream as [e |]; [discriminate |].
  destruct (docker.PullImage client _ auth); [discriminate | reflexivity].
Qed.

Lemma run_PullDockerImage client image auth force log :
  runState (PullDockerImage hub stream client image auth force) log
  = let '(r, log') := runState (resolveTag hub client image force) log in
    match snd r with
    | Some e => ((None, Some e), log')
    | None => runState (pullTag stream client image auth (fst r)) log'
    end.
Proof.
  unfold PullDockerImage. cbn [bind Monad_state runState].
  destruct (runState (resolveTag hub client image force) log)
    as [[tag [e |]] log']; reflexivity.
Qed.

(** C5. For an image that has neither a version range nor the wildcard,
    the tag to pull is the image's own tag, the only request sent is the
    pull of that tag (no listing of the engine, no listing of the registry),
    and a successful pull returns the reference built from that tag. *)
Theorem PullDockerImage_exact_tag (client : docker.Client) (image : ImageName)
    (auth : docker.AuthConfiguration) (force : bool) (log : list Call) :
  HasVersionRange image = false -> All image = false ->
  runState (resolveTag hub client image force) log = ((Tag image, None), log)
  /\ snd (runState (PullDockerImage hub stream client image auth force) log)
     = log ++ [PullImageCall
                 {| docker.Repository := NameWithRegistry image;
                    docker.Registry := Registry image;
                    docker.Tag := Tag image;
                    docker.RawJSONStream := true |} auth]
  /\ (snd (fst (runState (PullDockerImage hub stream client image auth force) log))
      = None ->
      fst (fst (runState (PullDockerImage hub stream client image auth force) log))
      = Some (New (NameWithRegistry image) (Tag image))).
Proof.
  intros Hr Ha.
  assert (E : runState (resolveTag hub client image force) log
              = ((Tag image, None), log)).
  { rewrite run_resolveTag, Hr, Ha. reflexivity. }
  rewrite run_PullDockerImage, E. cbn [fst snd].
  repeat split.
  - now rewrite run_pullTag.
  - apply pullTag_success.
Qed.

(** The outcome of the resolution on the listing of the registry alone. *)
Lemma run_resolveTag_remote client image force log :
  HasVersionRange image || All image = true ->
  len0 (fst (localListing client image)) || force = true ->
  runState (resolveTag hub client image force) log
  = (match snd (List hub image) with
     | Some e => (Tag image, Some e)
     | None =>
         match findMostRecentTag image (fst (List hub image)) with
         | Some recent => (Tag recent, None)
         | None => (Tag image, None)
         end
     end, log ++ [ListImagesCall; HubListCall image]).
Proof.
  intros Hr Hg. rewrite run_resolveTag, Hr, run_gatherCandidates, Hg.
  reflexivity.
Qed.

(** C6. For a ranged or wildcard image, when the engine yields no candidate
    or [force] is set, the registry is consulted and its listing replaces
    that of the engine: the tag, or the error, is computed from the listing
    of the registry alone. *)
Theorem resolveTag_remote_replaces_local (client : docker.Client)
    (image : ImageName) (force : bool) (log : list Call) :
  HasVersionRange image || All image = true ->
  fst (localListing client image) = [] \/ force = true ->
  runState (gatherCandidates hub client image force) log
  = (List hub image, log ++ [ListImagesCall; HubListCall image])
  /\ runState (resolveTag hub client image force) log
     = (match snd (List hub image) with
        | Some e => (Tag image, Some e)
        | None =>
            match findMostRecentTag image (fst (List hub image)) with
            | Some recent => (Tag recent, None)
            | None => (Tag image, None)
            end
        end, log ++ [ListImagesCall; HubListCall image]).
Proof.
  intros Hr Hg.
  assert (Hg' : len0 (fst (localListing client image)) || force = true).
  { destruct Hg as [-> | ->]; [reflexivity | apply orb_true_r]. }
  split.
  - now rewrite run_gatherCandidates, Hg'.
  - now apply run_resolveTag_remote.
Qed.

(** A failed listing of the engine leaves [list] empty, so the registry is
    consulted and its result, error included, replaces that of the engine:
    the error of the engine is never returned. *)
Lemma resolveTag_local_failure client image force log e :
  HasVersionRange image || All image = true ->
  snd (docker.ListImages client) = Some e ->
  runState (resolveTag hub client image force) log
  = (match snd (List hub image) with
     | Some e' => (Tag image, Some e')
     | None =>
         match findMostRecentTag image (fst (List hub image)) with
         | Some recent => (Tag recent, None)
         | None => (Tag image, None)
         end
     end, log ++ [ListImagesCall; HubListCall image]).
Proof.
  intros Hr He. apply run_resolveTag_remote; [assumption |].
  rewrite localListing_eq.
  destruct (docker.ListImages client) as [all [e' |]]; [reflexivity |].
  discriminate.
Qed.

(** What the scan returns is what it held or an applicable candidate of the
    list. *)
Lemma loop_selects_from_list image list img r :
  findMostRecentTag_loop image list img = Some r ->
  img = Some r \/ (In r list /\ Contains image r = true).
Proof.
  revert img. induction list as [| c rest IH]; intros img E; [now left |].
  destruct (Contains image c) eqn:Hc.
  - destruct (isLatest c) eqn:Hl.
    + rewrite loop_latest in E by (auto; now apply isLatest_true).
      injection E as <-. right. split; [now left | assumption].
    + apply isLatest_false in Hl. destruct img as [cur |].
      * rewrite loop_next in E by assumption.
        destruct (HasVersion c && HasVersion cur
                  && Less (TagAsVersion cur) (TagAsVersion c));
          destruct (IH _ E) as [X | [X Y]]; auto.
        -- injection X as <-. right. split; [now left | assumption].
        -- right. split; [now right | assumption].
        -- right. split; [now right | assumption].
      * rewrite loop_first in E by assumption.
        destruct (IH _ E) as [X | [X Y]].
        -- injection X as <-. right. split; [now left | assumption].
        -- right. split; [now right | assumption].
  - rewrite loop_skip in E by assumption.
    destruct (IH _ E) as [X | [X Y]]; auto.
    right. split; [now right | assumption].
Qed.

Lemma findMostRecentTag_selects_from_list image list r :
  findMostRecentTag image list = Some r ->
  In r list /\ Contains image r = true.
Proof.
  intros E. destruct (loop_selects_from_list image list None r E) as [X | X];
    [discriminate | assumption].
Qed.

(** C7, amended. For a ranged or wildcard image whose chosen list holds no
    applicable candidate, nothing is reported: the tag stays the one of the
    image, the pull of that tag is requested, and the caller receives the
    outcome of that pull, which on success is the reference built from the
    original tag. *)
Theorem PullDockerImage_no_applicable_candidate (client : docker.Client)
    (image : ImageName) (auth : docker.AuthConfiguration) (force : bool)
    (log log' : list Call) (list : list ImageName) :
  HasVersionRange image || All image = true ->
  runState (gatherCandidates hub client image force) log = ((list, None), log') ->
  (forall c, In c list -> Contains image c = false) ->
  runState (resolveTag hub client image force) log = ((Tag image, None), log')
  /\ runState (PullDockerImage hub stream client image auth force) log
     = runState (pullTag stream client image auth (Tag image)) log'
  /\ snd (runState (PullDockerImage hub stream client image auth force) log)
     = log' ++ [PullImageCall
                  {| docker.Repository := NameWithRegistry image;
                     docker.Registry := Registry image;
                     docker.Tag := Tag image;
                     docker.RawJSONStream := true |} auth]
  /\ (snd (fst (runState (PullDockerImage hub stream client image auth force) log))
      = None ->
      fst (fst (runState (PullDockerImage hub stream client image auth force) log))
      = Some (New (NameWithRegistry image) (Tag image))).
Proof.
  intros Hr Hg Hno.
  assert (Hnone : findMostRecentTag image list = None).
  { unfold findMostRecentTag. now apply loop_nothing_applicable. }
  assert (E : runState (resolveTag hub client image force) log
              = ((Tag image, None), log')).
  { rewrite run_resolveTag, Hr, Hg. cbn [fst snd]. now rewrite Hnone. }
  rewrite run_PullDockerImage, E. cbn [fst snd].
  repeat split.
  - now rewrite run_pullTag.
  - apply pullTag_success.
Qed.

(** C8, amended. Whenever [PullDockerImage] succeeds, its result is the
    reference that [imagename.New] builds from the name with registry of the
    image and the tag that was pulled.  For a ranged or wildcard image that
    tag is the tag of the candidate that [findMostRecentTag] selected in the
    chosen list, an applicable candidate of that list, when it selected one;
    it is the tag of the image itself when nothing was selected and when the
    image is neither ranged nor a wildcard. *)
Theorem PullDockerImage_success_result (client : docker.Client)
    (image : ImageName) (auth : docker.AuthConfiguration) (force : bool)
    (log : list Call) :
  snd (fst (runState (PullDockerImage hub stream client image auth force) log))
  = None ->
  exists tag,
    fst (runState (resolveTag hub client image force) log) = (tag, None)
    /\ fst (fst (runState (PullDockerImage hub stream client image auth force) log))
       = Some (New (NameWithRegistry image) tag)
    /\ In (PullImageCall
             {| docker.Repository := NameWithRegistry image;
                docker.Registry := Registry image;
                docker.Tag := tag;
                docker.RawJSONStream := true |} auth)
          (snd (runState (PullDockerImage hub stream client image auth force) log))
    /\ tag
       = (if HasVersionRange image || All image then
            match findMostRecentTag image
                    (fst (fst (runState (gatherCandidates hub client image force)
                                        log))) with
            | Some recent => Tag recent
            | None => Tag image
            end
          else Tag image)
    /\ (HasVersionRange image || All image = true ->
        snd (fst (runState (gatherCandidates hub client image force) log)) = None)
    /\ (forall recent,
          findMostRecentTag image
            (fst (fst (runState (gatherCandidates hub client image force) log)))
          = Some recent ->
          In recent (fst (fst (runState (gatherCandidates hub client image force)
                                        log)))
          /\ Contains image recent = true).
Proof.
  rewrite run_PullDockerImage.
  assert (Htag : forall tag,
             fst (runState (resolveTag hub client image force) log) = (tag, None) ->
             tag
             = (if HasVersionRange image || All image then
                  match findMostRecentTag image
                          (fst (fst (runState
                                       (gatherCandidates hub client image force)
                                       log))) with
                  | Some recent => Tag recent
                  | None => Tag image
                  end
                else Tag image)
             /\ (HasVersionRange image || All image = true ->
                 snd (fst (runState (gatherCandidates hub client image force) log))
                 = None)).
  { intros tag. rewrite run_resolveTag.
    destruct (HasVersionRange image || All image).
    - destruct (runState (gatherCandidates hub client image force) log)
        as [[list [e |]] log1]; cbn [fst snd]; [discriminate |].
      destruct (findMostRecentTag image list) as [recent |];
        intros E; injection E as <-; split; reflexivity.
    - cbn. intros E. injection E as <-. split; [reflexivity | discriminate]. }
  destruct (runState (resolveTag hub client image force) log)
    as [[tag [e |]] log1]; cbn [fst snd] in *; [discriminate |].
  intros Hok. exists tag.
  destruct (Htag tag eq_refl) as [Ht Herr].
  split; [reflexivity |]. split; [now apply pullTag_success |].
  split; [rewrite run_pullTag; cbn [snd]; apply in_or_app; right; now left |].
  split; [exact Ht |]. split; [exact Herr |].
  intros recent. apply findMostRecentTag_selects_from_list.
Qed.

Lemma run_bridgeProbe client container log :
  runState (bridgeProbe client container) log
  = match docker.StartContainer client (docker.ID container) with
    | Some e =>
        (("", Some ("Failed to start dummy network container "
                      ++ trunc12 (docker.ID container) ++ ", error: " ++ e)%string),
         log ++ [StartContainerCall (docker.ID container)])
    | None =>
        match docker.InspectContainer client (docker.ID container) with
        | (_, Some e) =>
            (("", Some ("Failed to inspect dummy network container "
                          ++ trunc12 (docker.ID container) ++ ", error: " ++ e)%string),
             log ++ [StartContainerCall (docker.ID container);
                     InspectContainerCall (docker.ID container)])
        | (inspect, None) =>
            ((docker.Gateway (docker.Network inspect), None),
             log ++ [StartContainerCall (docker.ID container);
                     InspectContainerCall (docker.ID container)])
        end
    end.
Proof.
  unfold bridgeProbe. cbn [bind Monad_state runState record].
  destruct (docker.StartContainer client (docker.ID container)) as [e |];
    [reflexivity |].
  cbn [bind Monad_state runState record].
  destruct (docker.InspectContainer client (docker.ID container))
    as [inspect [e |]]; cbn; rewrite <- app_assoc; reflexivity.
Qed.

Lemma run_bridgeCleanup client container ip err log :
  runState (bridgeCleanup client container (ip, err)) log
  = ((ip, match err with
          | Some e => Some e
          | None => docker.RemoveContainer client (bridgeRemoveOpts container)
          end),
     log ++ [RemoveContainerCall (bridgeRemoveOpts container)]).
Proof.
  unfold bridgeCleanup. cbn [bind Monad_state runState record].
  destruct (docker.RemoveContainer client (bridgeRemoveOpts container)) as [e2 |],
    err as [e |]; reflexivity.
Qed.

(** The three exits of [GetBridgeIp] after the creation of the container. *)
Lemma run_GetBridgeIp_created (client : docker.Client)
    (container : docker.Container) (log log1 : list Call) :
  runState (bridgeEnsureImage hub stream client) log = (None, log1) ->
  docker.CreateContainer client bridgeCreateOpts = (container, None) ->
  runState (GetBridgeIp hub stream client) log
  = match docker.StartContainer client (docker.ID container) with
    | Some e =>
        (("", Some ("Failed to start dummy network container "
                      ++ trunc12 (docker.ID container) ++ ", error: " ++ e)%string),
         log1 ++ [CreateContainerCall bridgeCreateOpts;
                  StartContainerCall (docker.ID container);
                  RemoveContainerCall (bridgeRemoveOpts container)])
    | None =>
        match docker.InspectContainer client (docker.ID container) with
        | (_, Some e) =>
            (("", Some ("Failed to inspect dummy network container "
                          ++ trunc12 (docker.ID container) ++ ", error: " ++ e)%string),
             log1 ++ [CreateContainerCall bridgeCreateOpts;
                      StartContainerCall (docker.ID container);
                      InspectContainerCall (docker.ID container);
                      RemoveContainerCall (bridgeRemoveOpts container)])
        | (inspect, None) =>
            ((docker.Gateway (docker.Network inspect),
              docker.RemoveContainer client (bridgeRemoveOpts container)),
             log1 ++ [CreateContainerCall bridgeCreateOpts;
                      StartContainerCall (docker.ID container);
                      InspectContainerCall (docker.ID container);
                      RemoveContainerCall (bridgeRemoveOpts container)])
        end
    end.
Proof.
  intros Hens Hcreate. unfold GetBridgeIp.
  cbn [bind Monad_state runState]. rewrite Hens.
  cbn [bind Monad_state runState record]. rewrite Hcreate.
  cbn [bind Monad_state runState]. rewrite run_bridgeProbe.
  destruct (docker.StartContainer client (docker.ID container)) as [e |].
  - rewrite run_bridgeCleanup, <- !app_assoc. reflexivity.
  - destruct (docker.InspectContainer client (docker.ID container))
      as [inspect [e |]]; rewrite run_bridgeCleanup, <- !app_assoc;
      reflexivity.
Qed.

(** C9. Once the container has been created, every exit path of
    [GetBridgeIp] ends with the removal of that container (by its ID,
    forced, with its volumes), requested once and last; the error of a
    failed start or inspect is returned whatever the removal does, and the
    error of the removal is returned only when start and inspect both
    succeeded. *)
Theorem GetBridgeIp_removes_container (client : docker.Client)
    (container : docker.Container) (log log1 : list Call) :
  runState (bridgeEnsureImage hub stream client) log = (None, log1) ->
  docker.CreateContainer client
    {| docker.Config :=
         {| docker.Image := "gliderlabs/alpine:3.2";
            docker.Cmd := ["/bin/sh"; "-c"; "while true; do sleep 1; done"] |} |}
  = (container, None) ->
  runState (GetBridgeIp hub stream client) log
  = match docker.StartContainer client (docker.ID container) with
    | Some e =>
        (("", Some ("Failed to start dummy network container "
                      ++ truncateString 12 0 (docker.ID container)
                      ++ ", error: " ++ e)%string),
         log1 ++ [CreateContainerCall
                    {| docker.Config :=
                         {| docker.Image := "gliderlabs/alpine:3.2";
                            docker.Cmd := ["/bin/sh"; "-c";
                                           "while true; do sleep 1; done"] |} |};
                  StartContainerCall (docker.ID container);
                  RemoveContainerCall
                    {| docker.RemoveID := docker.ID container;
                       docker.Force := true;
                       docker.RemoveVolumes := true |}])
    | None =>
        match docker.InspectContainer client (docker.ID container) with
        | (_, Some e) =>
            (("", Some ("Failed to inspect dummy network container "
                          ++ truncateString 12 0 (docker.ID container)
                          ++ ", error: " ++ e)%string),
             log1 ++ [CreateContainerCall
                        {| docker.Config :=
                             {| docker.Image := "gliderlabs/alpine:3.2";
                                docker.Cmd := ["/bin/sh"; "-c";
                                               "while true; do sleep 1; done"] |} |};
                      StartContainerCall (docker.ID container);
                      InspectContainerCall (docker.ID container);
                      RemoveContainerCall
                        {| docker.RemoveID := docker.ID container;
                           docker.Force := true;
                           docker.RemoveVolumes := true |}])
        | (inspect, None) =>
            ((docker.Gateway (docker.Network inspect),
              docker.RemoveContainer client
                {| docker.RemoveID := docker.ID container;
                   docker.Force := true;
                   docker.RemoveVolumes := true |}),
             log1 ++ [CreateContainerCall
                        {| docker.Config :=
                             {| docker.Image := "gliderlabs/alpine:3.2";
                                docker.Cmd := ["/bin/sh"; "-c";
                                               "while true; do sleep 1; done"] |} |};
                      StartContainerCall (docker.ID container);
                      InspectContainerCall (docker.ID container);
                      RemoveContainerCall
                        {| docker.RemoveID := docker.ID container;
                           docker.Force := true;
                           docker.RemoveVolumes := true |}])
        end
    end.
Proof.
  intros Hens Hcreate.
  exact (run_GetBridgeIp_created client container log log1 Hens Hcreate).
Qed.

End ComposeFacts.

(** ** Resolution and pull on concrete engines *)
Section ComposeExamples.
Import Scenario.
Existing Instance Ref.api.

(** C2. The wildcard [repo:x] is pulled from an engine whose [ListImages]
    fails while the registry lists [repo:1.0.0]: the registry is consulted
    although [force] is not set, the error of the engine is dropped, and the
    call succeeds with [repo:1.0.0]. *)
Theorem PullDockerImage_local_failure_not_surfaced :
  runState
    (PullDockerImage (registry ["repo:1.0.0"]) None
       (engineListFails "connection refused") (repo "x") noAuth false) []
  = ((Some (repo "1.0.0"), None),
     [ListImagesCall; HubListCall (repo "x"); pullOf "1.0.0"])
  /\ localListing (engineListFails "connection refused") (repo "x")
     = ([], Some "Failed to list all images, error: connection refused").
Proof. split; reflexivity. Qed.

Lemma PullDockerImage_exact_tag_witness :
  HasVersionRange (repo "1.0.0") = false /\ All (repo "1.0.0") = false
  /\ snd (runState
            (PullDockerImage (registry ["repo:2.0.0"]) None
               (engine [{| docker.RepoTags := ["repo:1.5.0"] |}])
               (repo "1.0.0") noAuth true) [])
     = [pullOf "1.0.0"].
Proof.
  assert (Hr : HasVersionRange (repo "1.0.0") = false) by reflexivity.
  assert (Ha : All (repo "1.0.0") = false) by reflexivity.
  split; [exact Hr | split; [exact Ha |]].
  exact (proj1 (proj2 (PullDockerImage_exact_tag (registry ["repo:2.0.0"]) None
                         (engine [{| docker.RepoTags := ["repo:1.5.0"] |}])
                         (repo "1.0.0") noAuth true [] Hr Ha))).
Defined.

Lemma resolveTag_remote_replaces_local_witness :
  HasVersionRange (repo "x") || All (repo "x") = true
  /\ (fst (localListing (engine [{| docker.RepoTags := ["repo:1.0.0"] |}])
             (repo "x")) = []
      \/ true = true)
  /\ runState
       (resolveTag (registry ["repo:2.0.0"])
          (engine [{| docker.RepoTags := ["repo:1.0.0"] |}]) (repo "x") true) []
     = (("2.0.0", None), [ListImagesCall; HubListCall (repo "x")]).
Proof.
  assert (Hr : HasVersionRange (repo "x") || All (repo "x") = true)
    by reflexivity.
  assert (Hg : fst (localListing (engine [{| docker.RepoTags := ["repo:1.0.0"] |}])
                      (repo "x")) = []
               \/ true = true) by (right; reflexivity).
  split; [exact Hr | split; [exact Hg |]].
  exact (proj2 (resolveTag_remote_replaces_local (registry ["repo:2.0.0"])
                  (engine [{| docker.RepoTags := ["repo:1.0.0"] |}])
                  (repo "x") true [] Hr Hg)).
Defined.

(** C7 as stated fails: the range [repo:1.x] is resolved against a registry
    that only lists [repo:2.0.0]; no candidate is applicable, no error is
    returned, and the caller receives [repo:1.x], still a range. *)
Lemma PullDockerImage_no_applicable_candidate_counterexample :
  ~ (forall (hub : DockerHub) (stream : option error)
            (client : docker.Client) (image : ImageName)
            (auth : docker.AuthConfiguration) (force : bool),
        HasVersionRange image || All image = true ->
        snd (fst (runState (gatherCandidates hub client image force) [])) = None ->
        (forall c,
            In c (fst (fst (runState (gatherCandidates hub client image force) []))) ->
            Contains image c = false) ->
        snd (fst (runState (PullDockerImage hub stream client image auth force) []))
        <> None
        \/ exists r,
             fst (fst (runState (PullDockerImage hub stream client image auth force) []))
             = Some r
             /\ HasVersionRange r = false /\ All r = false).
Proof.
  intros claim.
  destruct (claim (registry ["repo:2.0.0"]) None (engine []) (repo "1.x")
              noAuth false) as [Herr | [r [E [Hr _]]]].
  - reflexivity.
  - reflexivity.
  - intros c [<- | []]. reflexivity.
  - apply Herr. reflexivity.
  - vm_compute in E. injection E as <-. vm_compute in Hr. discriminate.
Qed.

Lemma PullDockerImage_no_applicable_candidate_witness :
  HasVersionRange (repo "1.x") || All (repo "1.x") = true
  /\ runState (gatherCandidates (registry ["repo:2.0.0"]) (engine [])
                 (repo "1.x") false) []
     = (([repo "2.0.0"], None), [ListImagesCall; HubListCall (repo "1.x")])
  /\ (forall c, In c [repo "2.0.0"] -> Contains (repo "1.x") c = false)
  /\ snd (runState
            (PullDockerImage (registry ["repo:2.0.0"]) None (engine [])
               (repo "1.x") noAuth false) [])
     = [ListImagesCall; HubListCall (repo "1.x"); pullOf "1.x"].
Proof.
  assert (Hr : HasVersionRange (repo "1.x") || All (repo "1.x") = true)
    by reflexivity.
  assert (Hg : runState (gatherCandidates (registry ["repo:2.0.0"]) (engine [])
                           (repo "1.x") false) []
               = (([repo "2.0.0"], None),
                  [ListImagesCall; HubListCall (repo "1.x")])) by reflexivity.
  assert (Hno : forall c, In c [repo "2.0.0"] -> Contains (repo "1.x") c = false)
    by (intros c [<- | []]; reflexivity).
  split; [exact Hr | split; [exact Hg | split; [exact Hno |]]].
  exact (proj1 (proj2 (proj2
           (PullDockerImage_no_applicable_candidate (registry ["repo:2.0.0"])
              None (engine []) (repo "1.x") noAuth false [] _ _ Hr Hg Hno)))).
Defined.

(** C8 as stated fails: the wildcard [repo:x] is pulled while neither the
    engine nor the registry lists anything; the call succeeds and returns
    [repo:x], whose tag is the wildcard of the input and no concrete tag. *)
Lemma PullDockerImage_success_result_counterexample :
  ~ (forall (hub : DockerHub) (stream : option error)
            (client : docker.Client) (image : ImageName)
            (auth : docker.AuthConfiguration) (force : bool),
        snd (fst (runState (PullDockerImage hub stream client image auth force) []))
        = None ->
        exists r tag,
          fst (fst (runState (PullDockerImage hub stream client image auth force) []))
          = Some r
          /\ r = New (NameWithRegistry image) tag
          /\ HasVersionRange r = false /\ All r = false).
Proof.
  intros claim.
  destruct (claim (registry []) None (engine []) (repo "x") noAuth false)
    as [r [tag [E [_ [_ Ha]]]]].
  - reflexivity.
  - vm_compute in E. injection E as <-. vm_compute in Ha. discriminate.
Qed.

Lemma PullDockerImage_success_result_witness :
  snd (fst (runState
              (PullDockerImage (registry ["repo:1.0.0"; "repo:1.2.0"]) None
                 (engine []) (repo "1.x") noAuth false) []))
  = None
  /\ fst (fst (runState
                 (PullDockerImage (registry ["repo:1.0.0"; "repo:1.2.0"]) None
                    (engine []) (repo "1.x") noAuth false) []))
     = Some (repo "1.2.0").
Proof.
  assert (Hok : snd (fst (runState
                   (PullDockerImage (registry ["repo:1.0.0"; "repo:1.2.0"]) None
                      (engine []) (repo "1.x") noAuth false) [])) = None)
    by reflexivity.
  split; [exact Hok |].
  destruct (PullDockerImage_success_result (registry ["repo:1.0.0"; "repo:1.2.0"])
              None (engine []) (repo "1.x") noAuth false [] Hok)
    as [tag [_ [E [_ [Htag _]]]]].
  rewrite E, Htag. reflexivity.
Defined.

Lemma GetBridgeIp_removes_container_witness :
  runState (bridgeEnsureImage (registry []) None (engineStartFails "boom" "gone")) []
  = (None, [InspectImageCall "gliderlabs/alpine:3.2"])
  /\ docker.CreateContainer (engineStartFails "boom" "gone")
       {| docker.Config :=
            {| docker.Image := "gliderlabs/alpine:3.2";
               docker.Cmd := ["/bin/sh"; "-c"; "while true; do sleep 1; done"] |} |}
     = (probe, None)
  /\ runState (GetBridgeIp (registry []) None (engineStartFails "boom" "gone")) []
     = (("", Some "Failed to start dummy network container 0123456789ab, error: boom"),
        [InspectImageCall "gliderlabs/alpine:3.2";
         CreateContainerCall
           {| docker.Config :=
                {| docker.Image := "gliderlabs/alpine:3.2";
                   docker.Cmd := ["/bin/sh"; "-c";
                                  "while true; do sleep 1; done"] |} |};
         StartContainerCall "0123456789abcdef";
         RemoveContainerCall
           {| docker.RemoveID := "0123456789abcdef";
              docker.Force := true;
              docker.RemoveVolumes := true |}]).
Proof.
  assert (He : runState (bridgeEnsureImage (registry []) None
                           (engineStartFails "boom" "gone")) []
               = (None, [InspectImageCall "gliderlabs/alpine:3.2"]))
    by reflexivity.
  assert (Hc : docker.CreateContainer (engineStartFails "boom" "gone")
                 {| docker.Config :=
                      {| docker.Image := "gliderlabs/alpine:3.2";
                         docker.Cmd := ["/bin/sh"; "-c";
                                        "while true; do sleep 1; done"] |} |}
               = (probe, None)) by reflexivity.
  split; [exact He | split; [exact Hc |]].
  exact (GetBridgeIp_removes_container (registry []) None
           (engineStartFails "boom" "gone") probe [] _ He Hc).
Defined.

End ComposeExamples.

(** * Further properties of the code *)

(** ** More on the scan *)
Section SelectionMore.
Context {api : API}.
Variable image : ImageName.

(** Once a candidate is kept, the scan returns a candidate. *)
Lemma loop_some list cur :
  exists r, findMostRecentTag_loop image list (Some cur) = Some r.
Proof.
  revert cur. induction list as [| c rest IH]; intros cur; [now exists cur |].
  destruct (Contains image c) eqn:Hc.
  - destruct (isLatest c) eqn:Hl.
    + exists c. apply loop_latest; [assumption | now apply isLatest_true].
    + apply isLatest_false in Hl. rewrite loop_next by assumption.
      destruct (HasVersion c && HasVersion cur
                && Less (TagAsVersion cur) (TagAsVersion c)); apply IH.
  - rewrite loop_skip by assumption. apply IH.
Qed.

Lemma loop_filter list img :
  findMostRecentTag_loop image (filter (Contains image) list) img
  = findMostRecentTag_loop image list img.
Proof.
  revert img. induction list as [| c rest IH]; intros img; [reflexivity |].
  cbn [filter]. destruct (Contains image c) eqn:Hc.
  - destruct (isLatest c) eqn:Hl.
    + apply isLatest_true in Hl. now rewrite !loop_latest.
    + apply isLatest_false in Hl. destruct img as [cur |].
      * rewrite !loop_next by assumption. apply IH.
      * rewrite !loop_first by assumption. apply IH.
  - rewrite loop_skip by assumption. apply IH.
Qed.

Lemma loop_none_inv list :
  findMostRecentTag_loop image list None = None ->
  forall c, In c list -> Contains image c = false.
Proof.
  induction list as [| c rest IH]; intros E x Hx; [destruct Hx |].
  destruct (Contains image c) eqn:Hc.
  - exfalso. destruct (isLatest c) eqn:Hl.
    + rewrite loop_latest in E by (auto; now apply isLatest_true).
      discriminate.
    + apply isLatest_false in Hl. rewrite loop_first in E by assumption.
      destruct (loop_some rest c) as [r Hr]. congruence.
  - rewrite loop_skip in E by assumption.
    destruct Hx as [<- | Hx]; [assumption | now apply IH].
Qed.

(** A list with a contained candidate has a selection. *)
Lemma findMostRecentTag_some list c :
  In c list -> Contains image c = true ->
  exists r, findMostRecentTag image list = Some r.
Proof.
  intros Hin Hc. destruct (findMostRecentTag image list) as [r |] eqn:E;
    [now exists r |].
  rewrite (loop_none_inv list E c Hin) in Hc. discriminate.
Qed.

(** X1. [findMostRecentTag] returns [nil] exactly when the image contains no
    candidate of the list. *)
Theorem findMostRecentTag_none_iff (list : list ImageName) :
  findMostRecentTag image list = None
  <-> forall c, In c list -> Contains image c = false.
Proof.
  unfold findMostRecentTag. split.
  - apply loop_none_inv.
  - intros Hno. now apply loop_nothing_applicable.
Qed.

(** X2. What [findMostRecentTag] returns is a candidate of the list that the
    image contains; when it is not tagged [latest], no candidate of the list
    that the image contains is. *)
Theorem findMostRecentTag_sound (list : list ImageName) (r : ImageName) :
  findMostRecentTag image list = Some r ->
  In r list /\ Contains image r = true
  /\ (GetTag r <> Latest ->
      forall c, In c list -> Contains image c = true -> GetTag c <> Latest).
Proof.
  intros E. destruct (findMostRecentTag_selects_from_list _ _ _ E) as [Hin Hc].
  repeat split; auto. intros Hr c Hcin Hcc Hl.
  assert (Hal : applicableLatest image c = true).
  { unfold applicableLatest, applicable. rewrite Hcc. now apply isLatest_true. }
  unfold findMostRecentTag in E.
  rewrite (loop_finds_latest image list None) in E by eauto.
  destruct (find_some _ _ E) as [_ Hp]. unfold applicableLatest in Hp.
  apply andb_prop in Hp as [_ Hp]. apply isLatest_true in Hp. contradiction.
Qed.

(** X3. Candidates that the image does not contain have no influence: the
    selection is the same on the list stripped of them. *)
Theorem findMostRecentTag_filter (list : list ImageName) :
  findMostRecentTag image (filter (Contains image) list)
  = findMostRecentTag image list.
Proof. unfold findMostRecentTag. apply loop_filter. Qed.

(** X4. A candidate with a version appended to a list without applicable
    [latest], whose selection has a version, replaces the selection exactly
    when its version is strictly greater. *)
Theorem findMostRecentTag_append (list : list ImageName) (r c : ImageName) :
  (forall x, In x list -> Contains image x = true -> GetTag x <> Latest) ->
  findMostRecentTag image list = Some r -> HasVersion r = true ->
  Contains image c = true -> GetTag c <> Latest -> HasVersion c = true ->
  findMostRecentTag image (list ++ [c])
  = if Less (TagAsVersion r) (TagAsVersion c) then Some c else Some r.
Proof.
  intros Hno E Hvr Hc Hl Hvc. unfold findMostRecentTag in *.
  rewrite loop_app, E.
  - rewrite loop_next by assumption. rewrite Hvr, Hvc. cbn.
    destruct (Less (TagAsVersion r) (TagAsVersion c)); reflexivity.
  - intros x Hx. unfold applicableLatest, applicable.
    destruct (Contains image x) eqn:Hcx; [| reflexivity].
    cbn. apply isLatest_false. now apply Hno.
Qed.

(** X5. When no candidate that the image contains has a version or is
    tagged [latest], the first contained candidate of the list is returned,
    if there is one. *)
Theorem findMostRecentTag_unversioned (list : list ImageName) :
  (forall c, In c list -> Contains image c = true ->
             HasVersion c = false /\ GetTag c <> Latest) ->
  findMostRecentTag image list = find (Contains image) list.
Proof.
  intros Hun.
  assert (Hno : forall c, In c list -> applicableLatest image c = false).
  { intros c Hc. unfold applicableLatest, applicable.
    destruct (Contains image c) eqn:Hcc; [| reflexivity].
    cbn. apply isLatest_false. now apply Hun. }
  destruct (find (Contains image) list) as [c0 |] eqn:Hf.
  - destruct (loop_from_first image list c0 Hf Hno)
      as [rest [E [_ [Hsub [Hin Ha]]]]].
    unfold findMostRecentTag. rewrite E. apply loop_keeps_unversioned.
    + now apply Hun.
    + intros c Hc. apply Hno. now apply Hsub.
  - unfold findMostRecentTag. apply loop_nothing_applicable.
    exact (find_none _ _ Hf).
Qed.

Hypothesis Less_irrefl : forall v, Less v v = false.
Hypothesis Less_trans :
  forall u v w, Less u v = true -> Less v w = true -> Less u w = true.
Hypothesis Less_compares :
  forall u v w, Less u w = true -> Less u v = true \/ Less v w = true.

(** X6. Ties favour the candidate met first: a candidate that is not tagged
    [latest], is met only after a contained candidate with a version, and is
    not strictly newer than it, is not selected. *)
Theorem findMostRecentTag_tie (prefix rest : list ImageName)
    (c1 c2 : ImageName) :
  Contains image c1 = true -> HasVersion c1 = true ->
  Less (TagAsVersion c1) (TagAsVersion c2) = false ->
  c1 <> c2 -> ~ In c2 prefix -> GetTag c2 <> Latest ->
  findMostRecentTag image (prefix ++ c1 :: rest) <> Some c2.
Proof.
  intros Hc Hv Hle Hne Hnin Hl.
  apply (findMostRecentTag_tie_keeps_earlier image Less_irrefl Less_trans
           Less_compares); auto.
  now apply isLatest_false.
Qed.

End SelectionMore.

(** ** The selection under permutation *)
Section SelectionPermutation.
Context {api : API}.
Variable image : ImageName.

Hypothesis Less_irrefl : forall v, Less v v = false.
Hypothesis Less_trans :
  forall u v w, Less u v = true -> Less v w = true -> Less u w = true.
Hypothesis Less_compares :
  forall u v w, Less u w = true -> Less u v = true \/ Less v w = true.

(** With an applicable [latest] in the list, every order selects an
    applicable candidate tagged [latest]. *)
Lemma permutation_latest l l' c :
  Permutation l l' ->
  In c l -> Contains image c = true -> GetTag c = Latest ->
  exists x x',
    findMostRecentTag image l = Some x
    /\ findMostRecentTag image l' = Some x'
    /\ In x l /\ In x' l
    /\ Contains image x = true /\ Contains image x' = true
    /\ GetTag x = Latest /\ GetTag x' = Latest.
Proof.
  intros Hp Hin Hc Hl.
  assert (Hin' : In c l') by (eapply Permutation_in; eauto).
  destruct (findMostRecentTag_latest_in image l c Hin Hc Hl) as [x [E [Hx [Hcx Hlx]]]].
  destruct (findMostRecentTag_latest_in image l' c Hin' Hc Hl)
    as [x' [E' [Hx' [Hcx' Hlx']]]].
  exists x, x'. repeat split; auto.
  eapply Permutation_in; [apply Permutation_sym; exact Hp | exact Hx'].
Qed.

(** Without applicable [latest] and with versions on every applicable
    candidate, two orders select the same candidate or two candidates of
    equal version, each the first met in its list. *)
Lemma permutation_versioned l l' :
  Permutation l l' ->
  (forall c, In c l -> applicableLatest image c = false) ->
  (forall c, In c l -> Contains image c = true -> HasVersion c = true) ->
  findMostRecentTag image l = findMostRecentTag image l'
  \/ exists r r',
       findMostRecentTag image l = Some r
       /\ findMostRecentTag image l' = Some r'
       /\ r <> r'
       /\ Less (TagAsVersion r) (TagAsVersion r') = false
       /\ Less (TagAsVersion r') (TagAsVersion r) = false
       /\ seenBefore r r' l /\ seenBefore r' r l'.
Proof.
  intros Hp Hno Hver.
  assert (Hp' := Permutation_sym Hp).
  assert (Hto : forall x, In x l -> In x l')
    by (intros; eapply Permutation_in; eauto).
  assert (Hfrom : forall x, In x l' -> In x l)
    by (intros; eapply Permutation_in; eauto).
  assert (Hno' : forall c, In c l' -> applicableLatest image c = false)
    by (intros; apply Hno; auto).
  assert (Hnl : forall c, In c l -> applicable image c = true ->
                          isLatest c = false).
  { intros c Hc Ha. specialize (Hno c Hc). unfold applicableLatest in Hno.
    now rewrite Ha in Hno. }
  destruct (find (applicable image) l) as [c0 |] eqn:Hfa.
  - destruct (find_some _ _ Hfa) as [Hc0 Ha0].
    destruct (find_exists (applicable image) l' c0 (Hto c0 Hc0) Ha0)
      as [c0' Hfa'].
    destruct (find_some _ _ Hfa') as [Hc0' Ha0'].
    assert (Hv0 : HasVersion c0 = true) by (apply Hver; auto).
    assert (Hv0' : HasVersion c0' = true) by (apply Hver; auto).
    destruct (findMostRecentTag_maximal image Less_irrefl Less_trans
                l c0 Hfa Hv0 Hno) as [r [E [Hin [Ha [Hv Hmax]]]]].
    destruct (findMostRecentTag_maximal image Less_irrefl Less_trans
                l' c0' Hfa' Hv0' Hno') as [r' [E' [Hin' [Ha' [Hv' Hmax']]]]].
    destruct (ImageName_eq_dec r r') as [-> | Hne].
    + left. now rewrite E, E'.
    + right. exists r, r'.
      assert (H1 : Less (TagAsVersion r) (TagAsVersion r') = false)
        by (apply Hmax; auto).
      assert (H2 : Less (TagAsVersion r') (TagAsVersion r) = false)
        by (apply Hmax'; auto).
      repeat split; auto.
      * apply (selected_seenBefore image Less_irrefl Less_trans Less_compares);
          auto.
      * apply (selected_seenBefore image Less_irrefl Less_trans Less_compares);
          auto.
  - left. assert (Hna := find_none _ _ Hfa).
    unfold findMostRecentTag. rewrite !loop_nothing_applicable; auto.
Qed.

(** When all applicable candidates are one and the same, every order
    selects it. *)
Lemma permutation_single l l' :
  Permutation l l' ->
  (forall c1 c2, In c1 l -> In c2 l ->
                 Contains image c1 = true -> Contains image c2 = true ->
                 c1 = c2) ->
  findMostRecentTag image l = findMostRecentTag image l'.
Proof.
  intros Hp Hone.
  assert (Hto : forall x, In x l -> In x l')
    by (intros; eapply Permutation_in; eauto).
  assert (Hfrom : forall x, In x l' -> In x l)
    by (intros; eapply Permutation_in; [apply Permutation_sym |]; eauto).
  destruct (findMostRecentTag image l) as [r |] eqn:E;
    destruct (findMostRecentTag image l') as [r' |] eqn:E'; auto.
  - destruct (findMostRecentTag_selects_from_list _ _ _ E) as [Hr Hc].
    destruct (findMostRecentTag_selects_from_list _ _ _ E') as [Hr' Hc'].
    f_equal. apply Hone; auto.
  - destruct (findMostRecentTag_selects_from_list _ _ _ E) as [Hr Hc].
    rewrite (loop_none_inv image l' E' r (Hto r Hr)) in Hc. discriminate.
  - destruct (findMostRecentTag_selects_from_list _ _ _ E') as [Hr' Hc'].
    rewrite (loop_none_inv image l E r' (Hfrom r' Hr')) in Hc'. discriminate.
Qed.

(** C3, amended. For a list that holds an applicable candidate tagged
    [latest], or whose applicable candidates all have a parseable version,
    or whose applicable candidates are all one and the same,
    [findMostRecentTag] selects the same tag in every permutation of the
    list ([GetTag] always, and the [Tag] field that the caller reads as soon
    as the applicable candidates recognised as [latest] carry that literal
    tag), except when the two selections are different candidates of equal
    version (neither is less than the other); each list then selects the
    one it meets first. *)
Theorem findMostRecentTag_permutation (l l' : list ImageName) :
  Permutation l l' ->
  (exists c, In c l /\ Contains image c = true /\ GetTag c = Latest)
  \/ (forall c, In c l -> Contains image c = true -> HasVersion c = true)
  \/ (forall c1 c2, In c1 l -> In c2 l ->
                    Contains image c1 = true -> Contains image c2 = true ->
                    c1 = c2) ->
  (option_map GetTag (findMostRecentTag image l)
   = option_map GetTag (findMostRecentTag image l')
   /\ ((forall c, In c l -> Contains image c = true -> GetTag c = Latest ->
                  Tag c = Latest) ->
       option_map Tag (findMostRecentTag image l)
       = option_map Tag (findMostRecentTag image l')))
  \/ exists r r',
       findMostRecentTag image l = Some r
       /\ findMostRecentTag image l' = Some r'
       /\ r <> r'
       /\ Less (TagAsVersion r) (TagAsVersion r') = false
       /\ Less (TagAsVersion r') (TagAsVersion r) = false
       /\ seenBefore r r' l /\ seenBefore r' r l'.
Proof.
  intros Hp Hcase.
  assert (Hlatest : forall c, In c l -> Contains image c = true ->
                              GetTag c = Latest ->
            option_map GetTag (findMostRecentTag image l)
            = option_map GetTag (findMostRecentTag image l')
            /\ ((forall c, In c l -> Contains image c = true ->
                           GetTag c = Latest -> Tag c = Latest) ->
                option_map Tag (findMostRecentTag image l)
                = option_map Tag (findMostRecentTag image l'))).
  { intros c Hin Hc Hl.
    destruct (permutation_latest l l' c Hp Hin Hc Hl)
      as [x [x' [E [E' [Hx [Hx' [Hcx [Hcx' [Hlx Hlx']]]]]]]]].
    rewrite E, E'. cbn. split; [congruence |].
    intros Hlit. now rewrite (Hlit x), (Hlit x'). }
  assert (Hsame : findMostRecentTag image l = findMostRecentTag image l' ->
            option_map GetTag (findMostRecentTag image l)
            = option_map GetTag (findMostRecentTag image l')
            /\ ((forall c, In c l -> Contains image c = true ->
                           GetTag c = Latest -> Tag c = Latest) ->
                option_map Tag (findMostRecentTag image l)
                = option_map Tag (findMostRecentTag image l')))
    by (intros ->; split; reflexivity).
  destruct Hcase as [[c [Hin [Hc Hl]]] | [Hver | Hone]].
  - left. now apply (Hlatest c).
  - destruct (find (applicableLatest image) l) as [x |] eqn:Hfl.
    + left. destruct (find_some _ _ Hfl) as [Hx Hxp].
      unfold applicableLatest, applicable in Hxp.
      apply andb_prop in Hxp as [Hcx Hlx]. apply isLatest_true in Hlx.
      now apply (Hlatest x).
    + destruct (permutation_versioned l l' Hp (find_none _ _ Hfl) Hver)
        as [E | Htie]; [left; now apply Hsame | now right].
  - left. apply Hsame. now apply permutation_single.
Qed.

End SelectionPermutation.

Section PermutationExamples.
Import Scenario.
Existing Instance Ref.api.

Lemma findMostRecentTag_permutation_witness :
  Permutation [repo "foo"; repo "latest"; repo "1.0.0"]
              [repo "1.0.0"; repo "foo"; repo "latest"]
  /\ (exists c, In c [repo "foo"; repo "latest"; repo "1.0.0"]
                /\ Contains (repo "x") c = true /\ GetTag c = Latest)
  /\ option_map Tag
       (findMostRecentTag (repo "x") [repo "foo"; repo "latest"; repo "1.0.0"])
     = option_map Tag
         (findMostRecentTag (repo "x") [repo "1.0.0"; repo "foo"; repo "latest"]).
Proof.
  assert (Hp : Permutation [repo "foo"; repo "latest"; repo "1.0.0"]
                           [repo "1.0.0"; repo "foo"; repo "latest"]).
  { apply Permutation_sym.
    apply (Permutation_cons_app [repo "foo"; repo "latest"] []).
    rewrite app_nil_r. apply Permutation_refl. }
  assert (Hex : exists c, In c [repo "foo"; repo "latest"; repo "1.0.0"]
                          /\ Contains (repo "x") c = true /\ GetTag c = Latest).
  { exists (repo "latest"). repeat split. right; left; reflexivity. }
  split; [exact Hp | split; [exact Hex |]].
  destruct (findMostRecentTag_permutation (api := Ref.api) (repo "x")
              Ref_less_irrefl Ref_less_trans Ref_less_compares _ _ Hp
              (or_introl Hex)) as [[_ Htag] | [r [r' [E [E' [Hne _]]]]]].
  - apply Htag. intros c Hc _ Hl.
    destruct Hc as [<- | [<- | [<- | []]]];
      try reflexivity; vm_compute in Hl; discriminate.
  - vm_compute in E, E'. congruence.
Defined.

End PermutationExamples.

(** ** More on listing, resolution and pull *)
Section ComposeMore.
Context {api : API}.
Variable hub : DockerHub.
Variable stream : option error.

Local Arguments String.append : simpl never.

Lemma firstContained_sound image img c :
  In c (firstContained image img) ->
  Contains image c = true
  /\ exists tag, In tag (docker.RepoTags img) /\ c = NewFromString tag.
Proof.
  unfold firstContained.
  destruct (find _ (docker.RepoTags img)) as [tag |] eqn:Hf; [| intros []].
  intros [<- | []]. destruct (find_some _ _ Hf) as [Hin Hc]. eauto.
Qed.

Lemma localListing_sound client image c :
  In c (fst (localListing client image)) ->
  Contains image c = true
  /\ exists img tag,
       In img (fst (docker.ListImages client))
       /\ In tag (docker.RepoTags img) /\ c = NewFromString tag.
Proof.
  rewrite localListing_eq.
  destruct (docker.ListImages client) as [all [e |]]; cbn [fst];
    [intros [] |].
  rewrite scanImages_firstContained. cbn [app]. intros Hin.
  apply in_concat in Hin as [l [Hl Hc]].
  apply in_map_iff in Hl as [img [<- Himg]].
  destruct (firstContained_sound image img c Hc) as [Hcc [tag [Ht ->]]].
  split; [assumption |]. now exists img, tag.
Qed.

(** X7. Every candidate of the local lister is contained by the image and
    is the parse of a repository tag of a listed image. *)
Theorem listImagesInDocker_sound (client : docker.Client) (image : ImageName)
    (log : list Call) (c : ImageName) :
  In c (fst (fst (runState (listImagesInDocker client image) log))) ->
  Contains image c = true
  /\ exists img tag,
       In img (fst (docker.ListImages client))
       /\ In tag (docker.RepoTags img) /\ c = NewFromString tag.
Proof.
  rewrite run_listImagesInDocker. cbn [fst]. apply localListing_sound.
Qed.

(** X8. When the image contains no repository tag of any image of the
    engine, the registry is consulted, forced or not, and its listing is the
    one used. *)
Theorem gatherCandidates_nothing_local (client : docker.Client)
    (image : ImageName) (force : bool) (log : list Call) :
  (forall img tag,
      In img (fst (docker.ListImages client)) ->
      In tag (docker.RepoTags img) ->
      Contains image (NewFromString tag) = false) ->
  runState (gatherCandidates hub client image force) log
  = (List hub image, log ++ [ListImagesCall; HubListCall image]).
Proof.
  intros Hno. rewrite run_gatherCandidates.
  destruct (fst (localListing client image)) as [| c l] eqn:E;
    [reflexivity |].
  destruct (localListing_sound client image c) as [Hc [img [tag [Hi [Ht ->]]]]].
  { rewrite E. now left. }
  rewrite (Hno img tag Hi Ht) in Hc. discriminate.
Qed.

(** X9. For a ranged or wildcard image, without [force] and with at least
    one local candidate, the registry is not consulted, no error is
    returned, and the tag is that of a local candidate that the image
    contains. *)
Theorem resolveTag_local_only (client : docker.Client) (image : ImageName)
    (log : list Call) :
  HasVersionRange image || All image = true ->
  fst (localListing client image) <> [] ->
  exists r,
    runState (resolveTag hub client image false) log
    = ((Tag r, None), log ++ [ListImagesCall])
    /\ In r (fst (localListing client image))
    /\ Contains image r = true.
Proof.
  intros Hr Hne.
  assert (Herr : snd (localListing client image) = None).
  { rewrite localListing_eq in *.
    destruct (docker.ListImages client) as [all [e |]]; [| reflexivity].
    now contradiction Hne. }
  rewrite run_resolveTag, Hr, run_gatherCandidates.
  destruct (localListing client image) as [local err] eqn:E.
  cbn [fst snd] in *. subst err.
  destruct local as [| c l]; [now contradiction Hne |]. cbn [len0 orb fst snd].
  destruct (localListing_sound client image c) as [Hc _].
  { rewrite E. now left. }
  destruct (findMostRecentTag_some image (c :: l) c (or_introl eq_refl) Hc)
    as [r Hsel].
  rewrite Hsel. exists r. split; [reflexivity |].
  now apply findMostRecentTag_selects_from_list.
Qed.

(** X10. For a ranged or wildcard image, when the registry is consulted and
    its listing fails, [PullDockerImage] returns that error as it is, returns
    no reference, and requests no pull. *)
Theorem PullDockerImage_registry_failure (client : docker.Client)
    (image : ImageName) (auth : docker.AuthConfiguration) (force : bool)
    (log : list Call) (e : error) :
  HasVersionRange image || All image = true ->
  fst (localListing client image) = [] \/ force = true ->
  snd (List hub image) = Some e ->
  runState (PullDockerImage hub stream client image auth force) log
  = ((None, Some e), log ++ [ListImagesCall; HubListCall image]).
Proof.
  intros Hr Hg He.
  assert (Hg' : len0 (fst (localListing client image)) || force = true).
  { destruct Hg as [-> | ->]; [reflexivity | apply orb_true_r]. }
  rewrite run_PullDockerImage, run_resolveTag_remote, He by assumption.
  reflexivity.
Qed.

(** X11. [PullDockerImage] returns a reference exactly when it returns no
    error. *)
Theorem PullDockerImage_result_xor_error (client : docker.Client)
    (image : ImageName) (auth : docker.AuthConfiguration) (force : bool)
    (log : list Call) :
  fst (fst (runState (PullDockerImage hub stream client image auth force) log))
  = None
  <-> snd (fst (runState (PullDockerImage hub stream client image auth force) log))
      <> None.
Proof.
  rewrite run_PullDockerImage.
  destruct (runState (resolveTag hub client image force) log)
    as [[tag [e |]] log1]; cbn [fst snd].
  - split; [discriminate | reflexivity].
  - rewrite run_pullTag. cbn [fst snd].
    destruct stream as [e |]; [split; [discriminate | reflexivity] |].
    destruct (docker.PullImage client _ auth);
      split; try discriminate; try reflexivity; intros H; now contradiction H.
Qed.

(** X12. When the display of the progress stream fails, its error is the one
    returned, whatever the result of the pull request, which has been sent. *)
Theorem PullDockerImage_stream_failure (client : docker.Client)
    (image : ImageName) (auth : docker.AuthConfiguration) (force : bool)
    (log : list Call) (tag : string) (e : error) :
  fst (runState (resolveTag hub client image force) log) = (tag, None) ->
  runState (PullDockerImage hub (Some e) client image auth force) log
  = ((None, Some ("Failed to process json stream for image: "
                    ++ Image_String image ++ ", error: " ++ e)%string),
     snd (runState (resolveTag hub client image force) log)
     ++ [PullImageCall
           {| docker.Repository := NameWithRegistry image;
              docker.Registry := Registry image;
              docker.Tag := tag;
              docker.RawJSONStream := true |} auth]).
Proof.
  intros Hres. rewrite run_PullDockerImage.
  destruct (runState (resolveTag hub client image force) log) as [r log1].
  cbn [fst snd] in *. subst r. cbn [fst snd]. now rewrite run_pullTag.
Qed.

(** X13. When the listing of the engine fails, the registry is consulted,
    forced or not, and its listing and error replace those of the engine. *)
Theorem gatherCandidates_local_failure (client : docker.Client)
    (image : ImageName) (force : bool) (log : list Call) (e : error) :
  snd (docker.ListImages client) = Some e ->
  localListing client image
  = ([], Some ("Failed to list all images, error: " ++ e)%string)
  /\ runState (gatherCandidates hub client image force) log
     = (List hub image, log ++ [ListImagesCall; HubListCall image]).
Proof.
  intros He.
  assert (E : localListing client image
              = ([], Some ("Failed to list all images, error: " ++ e)%string)).
  { rewrite localListing_eq.
    destruct (docker.ListImages client) as [all [e' |]]; cbn in He;
      [injection He as -> | discriminate]. reflexivity. }
  split; [exact E |]. rewrite run_gatherCandidates, E. reflexivity.
Qed.

(** The requests of [PullDockerImage]: listings and pulls, nothing else. *)
Lemma PullDockerImage_calls client image auth force log :
  exists calls,
    snd (runState (PullDockerImage hub stream client image auth force) log)
    = log ++ calls
    /\ forall c, In c calls -> isRemoveContainerCall c = false
                               /\ forall opts, c <> CreateContainerCall opts.
Proof.
  assert (Hres : exists calls,
             snd (runState (resolveTag hub client image force) log) = log ++ calls
             /\ forall c, In c calls ->
                          isRemoveContainerCall c = false
                          /\ forall opts, c <> CreateContainerCall opts).
  { rewrite run_resolveTag. destruct (HasVersionRange image || All image).
    - rewrite run_gatherCandidates.
      destruct (len0 (fst (localListing client image)) || force); cbn [snd].
      + exists [ListImagesCall; HubListCall image]. split; [reflexivity |].
        intros c [<- | [<- | []]]; split; try reflexivity; discriminate.
      + exists [ListImagesCall]. split; [reflexivity |].
        intros c [<- | []]; split; try reflexivity; discriminate.
    - exists []. split; [now rewrite app_nil_r | intros c []]. }
  destruct Hres as [calls [E Hcalls]].
  rewrite run_PullDockerImage.
  destruct (runState (resolveTag hub client image force) log)
    as [[tag [e |]] log1]; cbn [fst snd] in *; subst log1.
  - now exists calls.
  - rewrite run_pullTag. cbn [snd]. eexists. rewrite <- app_assoc.
    split; [reflexivity |].
    intros c Hc. apply in_app_or in Hc as [Hc | [<- | []]]; auto.
    split; [reflexivity | discriminate].
Qed.

Lemma run_bridgeEnsureImage client log :
  runState (bridgeEnsureImage hub stream client) log
  = match docker.InspectImage client emptyImageName with
    | Some e =>
        if String.eqb e "no such image" then
          (snd (fst (runState
                       (PullDockerImage hub stream client
                          (NewFromString emptyImageName)
                          {| docker.Username := ""; docker.Password := "";
                             docker.Email := ""; docker.ServerAddress := "" |}
                          false)
                       (log ++ [InspectImageCall emptyImageName]))),
           snd (runState
                  (PullDockerImage hub stream client
                     (NewFromString emptyImageName)
                     {| docker.Username := ""; docker.Password := "";
                        docker.Email := ""; docker.ServerAddress := "" |}
                     false)
                  (log ++ [InspectImageCall emptyImageName])))
        else
          (Some ("Failed to inspect image " ++ emptyImageName
                   ++ ", error: " ++ e)%string,
           log ++ [InspectImageCall emptyImageName])
    | None => (None, log ++ [InspectImageCall emptyImageName])
    end.
Proof.
  unfold bridgeEnsureImage. cbn [bind Monad_state runState record].
  destruct (docker.InspectImage client emptyImageName) as [e |];
    [| reflexivity].
  destruct (String.eqb e "no such image"); [| reflexivity].
  cbn [bind Monad_state runState].
  destruct (runState (PullDockerImage _ _ _ _ _ _) _) as [r log1].
  reflexivity.
Qed.

Lemma run_GetBridgeIp client log :
  runState (GetBridgeIp hub stream client) log
  = let '(ensured, log1) := runState (bridgeEnsureImage hub stream client) log in
    match ensured with
    | Some e => (("", Some e), log1)
    | None =>
        match docker.CreateContainer client bridgeCreateOpts with
        | (_, Some e) =>
            (("", Some ("Failed to create dummy network container, error: "
                          ++ e)%string),
             log1 ++ [CreateContainerCall bridgeCreateOpts])
        | (container, None) =>
            let '(results, log2) :=
              runState (bridgeProbe client container)
                       (log1 ++ [CreateContainerCall bridgeCreateOpts]) in
            runState (bridgeCleanup client container results) log2
        end
    end.
Proof.
  unfold GetBridgeIp. cbn [bind Monad_state runState].
  destruct (runState (bridgeEnsureImage hub stream client) log)
    as [[e |] log1]; [reflexivity |].
  cbn [bind Monad_state runState record].
  destruct (docker.CreateContainer client bridgeCreateOpts)
    as [container [e |]]; [reflexivity |].
  cbn [bind Monad_state runState].
  destruct (runState (bridgeProbe client container) _) as [results log2].
  reflexivity.
Qed.

(** X14. An error of [InspectImage] other than "no such image" ends
    [GetBridgeIp] at once: the wrapped error is returned with an empty
    address, and nothing is pulled, created or removed. *)
Theorem GetBridgeIp_inspect_image_failure (client : docker.Client)
    (log : list Call) (e : error) :
  docker.InspectImage client emptyImageName = Some e ->
  e <> "no such image" ->
  runState (GetBridgeIp hub stream client) log
  = (("", Some ("Failed to inspect image gliderlabs/alpine:3.2, error: "
                  ++ e)%string),
     log ++ [InspectImageCall emptyImageName]).
Proof.
  intros Hi Hne. rewrite run_GetBridgeIp, run_bridgeEnsureImage, Hi.
  apply String.eqb_neq in Hne. rewrite Hne. reflexivity.
Qed.

(** X15. When the empty image is missing and its pull fails, [GetBridgeIp]
    returns the error of [PullDockerImage] as it is, with an empty address,
    and sends no request after those of the pull: no container is
    created. *)
Theorem GetBridgeIp_pull_failure (client : docker.Client) (log : list Call)
    (e : error) :
  docker.InspectImage client emptyImageName = Some "no such image" ->
  snd (fst (runState
              (PullDockerImage hub stream client (NewFromString emptyImageName)
                 {| docker.Username := ""; docker.Password := "";
                    docker.Email := ""; docker.ServerAddress := "" |} false)
              (log ++ [InspectImageCall emptyImageName])))
  = Some e ->
  runState (GetBridgeIp hub stream client) log
  = (("", Some e),
     snd (runState
            (PullDockerImage hub stream client (NewFromString emptyImageName)
               {| docker.Username := ""; docker.Password := "";
                  docker.Email := ""; docker.ServerAddress := "" |} false)
            (log ++ [InspectImageCall emptyImageName]))).
Proof.
  intros Hi Hp. rewrite run_GetBridgeIp, run_bridgeEnsureImage, Hi.
  cbn [String.eqb Ascii.eqb Bool.eqb]. rewrite Hp. reflexivity.
Qed.

(** X16. When [CreateContainer] fails, [GetBridgeIp] returns the wrapped
    error with an empty address and stops: nothing is started, inspected or
    removed. *)
Theorem GetBridgeIp_create_failure (client : docker.Client)
    (container : docker.Container) (log log1 : list Call) (e : error) :
  runState (bridgeEnsureImage hub stream client) log = (None, log1) ->
  docker.CreateContainer client bridgeCreateOpts = (container, Some e) ->
  runState (GetBridgeIp hub stream client) log
  = (("", Some ("Failed to create dummy network container, error: " ++ e)%string),
     log1 ++ [CreateContainerCall bridgeCreateOpts]).
Proof.
  intros He Hc. rewrite run_GetBridgeIp, He, Hc. reflexivity.
Qed.

(** The removals among the requests of [GetBridgeIp]. *)
Lemma GetBridgeIp_removals (client : docker.Client)
    (log : list Call) :
  exists calls,
    snd (runState (GetBridgeIp hub stream client) log) = log ++ calls
    /\ length (filter isRemoveContainerCall calls) <= 1
    /\ forall opts,
         In (RemoveContainerCall opts) calls ->
         opts = bridgeRemoveOpts (fst (docker.CreateContainer client bridgeCreateOpts))
         /\ snd (docker.CreateContainer client bridgeCreateOpts) = None
         /\ In (CreateContainerCall bridgeCreateOpts) calls.
Proof.
  assert (Hens : exists calls0,
             snd (runState (bridgeEnsureImage hub stream client) log)
             = log ++ calls0
             /\ forall c, In c calls0 -> isRemoveContainerCall c = false).
  { rewrite run_bridgeEnsureImage.
    destruct (docker.InspectImage client emptyImageName) as [e |].
    - destruct (String.eqb e "no such image"); cbn [snd].
      + destruct (PullDockerImage_calls client (NewFromString emptyImageName)
                    {| docker.Username := ""; docker.Password := "";
                       docker.Email := ""; docker.ServerAddress := "" |} false
                    (log ++ [InspectImageCall emptyImageName]))
          as [calls [E Hcalls]].
        rewrite E, <- app_assoc. eexists. split; [reflexivity |].
        intros c [<- | Hc]; [reflexivity | now apply Hcalls].
      + eexists. split; [reflexivity |]. intros c [<- | []]. reflexivity.
    - eexists. split; [reflexivity |]. intros c [<- | []]. reflexivity. }
  destruct Hens as [calls0 [E0 Hno]].
  assert (Hfilter : filter isRemoveContainerCall calls0 = []).
  { clear E0. induction calls0 as [| c l IH]; [reflexivity |].
    cbn. rewrite (Hno c) by now left. apply IH. intros; apply Hno; now right. }
  assert (Hnot : forall opts, ~ In (RemoveContainerCall opts) calls0).
  { intros opts Hin. now specialize (Hno _ Hin). }
  rewrite run_GetBridgeIp.
  destruct (runState (bridgeEnsureImage hub stream client) log)
    as [ensured log1]. cbn [snd] in E0. subst log1.
  destruct ensured as [e |].
  - exists calls0. cbn [snd]. rewrite Hfilter. repeat split; cbn; try lia;
      now destruct (Hnot opts).
  - destruct (docker.CreateContainer client bridgeCreateOpts)
      as [container [e |]] eqn:Hcreate; cbn [fst snd].
    + exists (calls0 ++ [CreateContainerCall bridgeCreateOpts]).
      rewrite app_assoc, filter_app, Hfilter. repeat split; cbn; try lia;
        apply in_app_or in H as [H | [H | []]];
        try discriminate; now destruct (Hnot opts).
    + rewrite run_bridgeProbe.
      assert (Hin : forall rest,
                 In (CreateContainerCall bridgeCreateOpts)
                    (calls0 ++ CreateContainerCall bridgeCreateOpts :: rest))
        by (intros; apply in_or_app; right; now left).
      destruct (docker.StartContainer client (docker.ID container)) as [e |];
        [| destruct (docker.InspectContainer client (docker.ID container))
             as [inspect [e |]]];
        rewrite run_bridgeCleanup; cbn [snd];
        rewrite <- !app_assoc; cbn [app];
        eexists; (split; [reflexivity |]);
        rewrite filter_app, Hfilter; cbn; (split; [lia |]);
        intros opts H; apply in_app_or in H as [H | H];
        try (now destruct (Hnot opts));
        repeat (destruct H as [H | H]; try discriminate; try now destruct H);
        injection H as <-; auto.
Qed.

(** X17. Whatever the engine answers, [GetBridgeIp] requests at most one
    removal, and only the forced removal, volumes included, of the container
    that a successful [CreateContainer] of the same call has handed out. *)
Theorem GetBridgeIp_removes_only_created (client : docker.Client)
    (log : list Call) :
  exists calls,
    snd (runState (GetBridgeIp hub stream client) log) = log ++ calls
    /\ length (filter isRemoveContainerCall calls) <= 1
    /\ forall opts,
         In (RemoveContainerCall opts) calls ->
         opts
         = {| docker.RemoveID :=
                docker.ID
                  (fst (docker.CreateContainer client
                          {| docker.Config :=
                               {| docker.Image := "gliderlabs/alpine:3.2";
                                  docker.Cmd :=
                                    ["/bin/sh"; "-c";
                                     "while true; do sleep 1; done"] |} |}));
              docker.Force := true;
              docker.RemoveVolumes := true |}
         /\ snd (docker.CreateContainer client
                   {| docker.Config :=
                        {| docker.Image := "gliderlabs/alpine:3.2";
                           docker.Cmd :=
                             ["/bin/sh"; "-c";
                              "while true; do sleep 1; done"] |} |})
            = None
         /\ In (CreateContainerCall
                  {| docker.Config :=
                       {| docker.Image := "gliderlabs/alpine:3.2";
                          docker.Cmd :=
                            ["/bin/sh"; "-c";
                             "while true; do sleep 1; done"] |} |})
               calls.
Proof. exact (GetBridgeIp_removals client log). Qed.

End ComposeMore.

(** ** The client configuration *)
Section ClientConfigFacts.
Variable Getenv : string -> string.
Variable StringOr : string -> string -> string.

Local Arguments String.append : simpl never.

(** X18. [NewDockerClient] builds a TLS client exactly when
    [DOCKER_TLS_VERIFY] is ["1"] or ["yes"]; it then passes, for the host
    [DOCKER_HOST], the files [cert.pem], [key.pem] and [ca.pem] of one
    directory as certificate, key and authority, and otherwise builds a
    plain client for [DOCKER_HOST]. *)
Theorem NewDockerClient_tls :
  (Getenv "DOCKER_TLS_VERIFY" = "1" \/ Getenv "DOCKER_TLS_VERIFY" = "yes" ->
   NewDockerClient Getenv StringOr
   = NewTLSClient (Getenv "DOCKER_HOST")
       (StringOr (Getenv "DOCKER_CERT_PATH") "~/.docker" ++ "/cert.pem")
       (StringOr (Getenv "DOCKER_CERT_PATH") "~/.docker" ++ "/key.pem")
       (StringOr (Getenv "DOCKER_CERT_PATH") "~/.docker" ++ "/ca.pem"))
  /\ (Getenv "DOCKER_TLS_VERIFY" <> "1" ->
      Getenv "DOCKER_TLS_VERIFY" <> "yes" ->
      NewDockerClient Getenv StringOr = NewClient (Getenv "DOCKER_HOST")).
Proof.
  unfold NewDockerClient, NewDockerClientFromConfig, NewDockerClientConfig.
  cbn [Tlsverify Host Tlscert Tlskey Tlscacert].
  split.
  - intros [H | H]; rewrite H; reflexivity.
  - intros H1 H2. apply String.eqb_neq in H1, H2. rewrite H1, H2. reflexivity.
Qed.

End ClientConfigFacts.

(** ** The further properties on concrete inputs *)
Section MoreExamples.
Import Scenario.
Existing Instance Ref.api.

Ltac each_member :=
  let c := fresh "c" in
  let H := fresh "H" in
  intros c H; repeat (destruct H as [<- | H]); try destruct H;
  vm_compute; try discriminate; try reflexivity; try tauto.

Lemma findMostRecentTag_sound_witness :
  findMostRecentTag (repo "1.x") [repo "2.0.0"; repo "1.1.0"; repo "1.0.0"]
  = Some (repo "1.1.0")
  /\ In (repo "1.1.0") [repo "2.0.0"; repo "1.1.0"; repo "1.0.0"]
  /\ Contains (repo "1.x") (repo "1.1.0") = true.
Proof.
  assert (E : findMostRecentTag (repo "1.x")
                [repo "2.0.0"; repo "1.1.0"; repo "1.0.0"]
              = Some (repo "1.1.0")) by reflexivity.
  split; [exact E |].
  destruct (findMostRecentTag_sound (repo "1.x") _ _ E) as [Hin [Hc _]].
  split; assumption.
Defined.

Lemma findMostRecentTag_append_witness :
  findMostRecentTag (repo "x") [repo "1.0.0"; repo "1.2.0"] = Some (repo "1.2.0")
  /\ findMostRecentTag (repo "x") ([repo "1.0.0"; repo "1.2.0"] ++ [repo "1.3.0"])
     = if Less (TagAsVersion (repo "1.2.0")) (TagAsVersion (repo "1.3.0"))
       then Some (repo "1.3.0") else Some (repo "1.2.0").
Proof.
  assert (Hno : forall x, In x [repo "1.0.0"; repo "1.2.0"] ->
                          Contains (repo "x") x = true -> GetTag x <> Latest)
    by each_member.
  assert (E : findMostRecentTag (repo "x") [repo "1.0.0"; repo "1.2.0"]
              = Some (repo "1.2.0")) by reflexivity.
  assert (Hv : HasVersion (repo "1.2.0") = true) by reflexivity.
  assert (Hc : Contains (repo "x") (repo "1.3.0") = true) by reflexivity.
  assert (Hl : GetTag (repo "1.3.0") <> Latest) by (vm_compute; discriminate).
  assert (Hvc : HasVersion (repo "1.3.0") = true) by reflexivity.
  split; [exact E |].
  exact (findMostRecentTag_append (repo "x") _ _ _ Hno E Hv Hc Hl Hvc).
Defined.

Lemma findMostRecentTag_unversioned_witness :
  (forall c, In c [repo "edge"; repo "nightly"] ->
             Contains (repo "x") c = true ->
             HasVersion c = false /\ GetTag c <> Latest)
  /\ findMostRecentTag (repo "x") [repo "edge"; repo "nightly"]
     = find (Contains (repo "x")) [repo "edge"; repo "nightly"].
Proof.
  assert (Hun : forall c, In c [repo "edge"; repo "nightly"] ->
                          Contains (repo "x") c = true ->
                          HasVersion c = false /\ GetTag c <> Latest).
  { intros c [<- | [<- | []]] _; split; try reflexivity;
      vm_compute; discriminate. }
  split; [exact Hun |].
  exact (findMostRecentTag_unversioned (repo "x") _ Hun).
Defined.

Lemma findMostRecentTag_tie_witness :
  Less (TagAsVersion (repo "2.0.0")) (TagAsVersion (repo "v2.0.0")) = false
  /\ findMostRecentTag (repo "x")
       ([repo "1.0.0"] ++ repo "2.0.0" :: [repo "v2.0.0"])
     <> Some (repo "v2.0.0").
Proof.
  assert (Hc : Contains (repo "x") (repo "2.0.0") = true) by reflexivity.
  assert (Hv : HasVersion (repo "2.0.0") = true) by reflexivity.
  assert (Hle : Less (TagAsVersion (repo "2.0.0")) (TagAsVersion (repo "v2.0.0"))
                = false) by reflexivity.
  assert (Hne : repo "2.0.0" <> repo "v2.0.0") by discriminate.
  assert (Hnin : ~ In (repo "v2.0.0") [repo "1.0.0"])
    by (intros [H | []]; discriminate).
  assert (Hl : GetTag (repo "v2.0.0") <> Latest) by (vm_compute; discriminate).
  split; [exact Hle |].
  exact (findMostRecentTag_tie (api := Ref.api) (repo "x")
           Ref_less_irrefl Ref_less_trans Ref_less_compares
           [repo "1.0.0"] [repo "v2.0.0"] (repo "2.0.0") (repo "v2.0.0")
           Hc Hv Hle Hne Hnin Hl).
Defined.

Lemma listImagesInDocker_sound_witness :
  In (repo "1.2.0")
     (fst (fst (runState (listImagesInDocker (engine localImages) (repo "x")) [])))
  /\ Contains (repo "x") (repo "1.2.0") = true.
Proof.
  assert (Hin : In (repo "1.2.0")
                  (fst (fst (runState (listImagesInDocker (engine localImages)
                                         (repo "x")) []))))
    by (right; left; reflexivity).
  split; [exact Hin |].
  exact (proj1 (listImagesInDocker_sound (engine localImages) (repo "x") []
                  (repo "1.2.0") Hin)).
Defined.

Lemma gatherCandidates_nothing_local_witness :
  (forall img tag,
      In img (fst (docker.ListImages (engine localImages))) ->
      In tag (docker.RepoTags img) ->
      Contains (repo "3.x") (NewFromString tag) = false)
  /\ runState (gatherCandidates (registry ["repo:3.1.0"]) (engine localImages)
                 (repo "3.x") false) []
     = (([repo "3.1.0"], None), [ListImagesCall; HubListCall (repo "3.x")]).
Proof.
  assert (Hno : forall img tag,
             In img (fst (docker.ListImages (engine localImages))) ->
             In tag (docker.RepoTags img) ->
             Contains (repo "3.x") (NewFromString tag) = false).
  { intros img tag Hi Ht. cbn in Hi.
    destruct Hi as [<- | [<- | [<- | []]]]; cbn in Ht;
      repeat (destruct Ht as [<- | Ht]); try destruct Ht; reflexivity. }
  split; [exact Hno |].
  exact (gatherCandidates_nothing_local (registry ["repo:3.1.0"])
           (engine localImages) (repo "3.x") false [] Hno).
Defined.

Lemma resolveTag_local_only_witness :
  HasVersionRange (repo "1.x") || All (repo "1.x") = true
  /\ fst (localListing (engine localImages) (repo "1.x")) <> []
  /\ exists r,
       runState (resolveTag (registry ["repo:1.9.0"]) (engine localImages)
                   (repo "1.x") false) []
       = ((Tag r, None), [] ++ [ListImagesCall])
       /\ Contains (repo "1.x") r = true.
Proof.
  assert (Hr : HasVersionRange (repo "1.x") || All (repo "1.x") = true)
    by reflexivity.
  assert (Hne : fst (localListing (engine localImages) (repo "1.x")) <> [])
    by (vm_compute; discriminate).
  split; [exact Hr | split; [exact Hne |]].
  destruct (resolveTag_local_only (registry ["repo:1.9.0"]) (engine localImages)
              (repo "1.x") [] Hr Hne) as [r [E [_ Hc]]].
  exists r. split; assumption.
Defined.

Lemma PullDockerImage_registry_failure_witness :
  HasVersionRange (repo "1.x") || All (repo "1.x") = true
  /\ snd (List (registryFails "503") (repo "1.x")) = Some "503"
  /\ runState (PullDockerImage (registryFails "503") None (engine localImages)
                 (repo "1.x") noAuth true) []
     = ((None, Some "503"), [] ++ [ListImagesCall; HubListCall (repo "1.x")]).
Proof.
  assert (Hr : HasVersionRange (repo "1.x") || All (repo "1.x") = true)
    by reflexivity.
  assert (Hg : fst (localListing (engine localImages) (repo "1.x")) = []
               \/ true = true) by (right; reflexivity).
  assert (He : snd (List (registryFails "503") (repo "1.x")) = Some "503")
    by reflexivity.
  split; [exact Hr | split; [exact He |]].
  exact (PullDockerImage_registry_failure (registryFails "503") None
           (engine localImages) (repo "1.x") noAuth true [] "503" Hr Hg He).
Defined.

Lemma PullDockerImage_stream_failure_witness :
  fst (runState (resolveTag (registry []) (engine localImages) (repo "1.x") false) [])
  = ("1.2.0", None)
  /\ runState (PullDockerImage (registry []) (Some "unexpected EOF")
                 (engine localImages) (repo "1.x") noAuth false) []
     = ((None,
         Some "Failed to process json stream for image: repo:1.x, error: unexpected EOF"),
        [ListImagesCall; pullOf "1.2.0"]).
Proof.
  assert (H : fst (runState (resolveTag (registry []) (engine localImages)
                               (repo "1.x") false) []) = ("1.2.0", None))
    by reflexivity.
  split; [exact H |].
  exact (PullDockerImage_stream_failure (registry []) (engine localImages)
           (repo "1.x") noAuth false [] "1.2.0" "unexpected EOF" H).
Defined.

Lemma gatherCandidates_local_failure_witness :
  snd (docker.ListImages (engineListFails "connection refused"))
  = Some "connection refused"
  /\ runState (gatherCandidates (registry ["repo:1.0.0"])
                 (engineListFails "connection refused") (repo "1.x") false) []
     = (([repo "1.0.0"], None), [ListImagesCall; HubListCall (repo "1.x")]).
Proof.
  assert (He : snd (docker.ListImages (engineListFails "connection refused"))
               = Some "connection refused") by reflexivity.
  split; [exact He |].
  exact (proj2 (gatherCandidates_local_failure (registry ["repo:1.0.0"])
                  (engineListFails "connection refused") (repo "1.x") false []
                  "connection refused" He)).
Defined.

Lemma GetBridgeIp_inspect_image_failure_witness :
  docker.InspectImage (engineOf (Some "timeout") None None None) emptyImageName
  = Some "timeout"
  /\ runState (GetBridgeIp (registry []) None
                 (engineOf (Some "timeout") None None None)) []
     = (("", Some "Failed to inspect image gliderlabs/alpine:3.2, error: timeout"),
        [InspectImageCall emptyImageName]).
Proof.
  assert (Hi : docker.InspectImage (engineOf (Some "timeout") None None None)
                 emptyImageName = Some "timeout") by reflexivity.
  assert (Hne : "timeout" <> "no such image") by discriminate.
  split; [exact Hi |].
  exact (GetBridgeIp_inspect_image_failure (registry []) None
           (engineOf (Some "timeout") None None None) [] "timeout" Hi Hne).
Defined.

Lemma GetBridgeIp_pull_failure_witness :
  docker.InspectImage
    (engineOf (Some "no such image") (Some "denied") None None) emptyImageName
  = Some "no such image"
  /\ fst (runState (GetBridgeIp (registry []) None
                      (engineOf (Some "no such image") (Some "denied") None None))
                   [])
     = ("", Some "Failed to pull image gliderlabs/alpine:3.2, error: denied").
Proof.
  assert (Hi : docker.InspectImage
                 (engineOf (Some "no such image") (Some "denied") None None)
                 emptyImageName = Some "no such image") by reflexivity.
  assert (Hp : snd (fst (runState
                           (PullDockerImage (registry []) None
                              (engineOf (Some "no such image") (Some "denied")
                                 None None)
                              (NewFromString emptyImageName)
                              {| docker.Username := ""; docker.Password := "";
                                 docker.Email := ""; docker.ServerAddress := "" |}
                              false)
                           ([] ++ [InspectImageCall emptyImageName])))
               = Some "Failed to pull image gliderlabs/alpine:3.2, error: denied")
    by reflexivity.
  split; [exact Hi |].
  exact (f_equal fst
           (GetBridgeIp_pull_failure (registry []) None
              (engineOf (Some "no such image") (Some "denied") None None) []
              _ Hi Hp)).
Defined.

Lemma GetBridgeIp_create_failure_witness :
  docker.CreateContainer (engineOf None None (Some "no space") None)
    bridgeCreateOpts
  = (probe, Some "no space")
  /\ runState (GetBridgeIp (registry []) None
                 (engineOf None None (Some "no space") None)) []
     = (("", Some "Failed to create dummy network container, error: no space"),
        [InspectImageCall emptyImageName] ++ [CreateContainerCall bridgeCreateOpts]).
Proof.
  assert (He : runState (bridgeEnsureImage (registry []) None
                           (engineOf None None (Some "no space") None)) []
               = (None, [InspectImageCall emptyImageName])) by reflexivity.
  assert (Hc : docker.CreateContainer (engineOf None None (Some "no space") None)
                 bridgeCreateOpts = (probe, Some "no space")) by reflexivity.
  split; [exact Hc |].
  exact (GetBridgeIp_create_failure (registry []) None
           (engineOf None None (Some "no space") None) probe [] _ "no space"
           He Hc).
Defined.

Lemma NewDockerClient_tls_witness :
  NewDockerClient
    (getenv [("DOCKER_HOST", "tcp://10.0.0.1:2376"); ("DOCKER_TLS_VERIFY", "yes")])
    stringOr
  = NewTLSClient "tcp://10.0.0.1:2376" "~/.docker/cert.pem"
      "~/.docker/key.pem" "~/.docker/ca.pem"
  /\ NewDockerClient
       (getenv [("DOCKER_HOST", "tcp://10.0.0.1:2376"); ("DOCKER_TLS_VERIFY", "true")])
       stringOr
     = NewClient "tcp://10.0.0.1:2376".
Proof.
  split.
  - exact (proj1 (NewDockerClient_tls
                    (getenv [("DOCKER_HOST", "tcp://10.0.0.1:2376");
                             ("DOCKER_TLS_VERIFY", "yes")]) stringOr)
             (or_intror eq_refl)).
  - apply (proj2 (NewDockerClient_tls
                    (getenv [("DOCKER_HOST", "tcp://10.0.0.1:2376");
                             ("DOCKER_TLS_VERIFY", "true")]) stringOr));
      discriminate.
Defined.

End MoreExamples.
